(** * pyboolnet.trap_spaces: encoder, solver pipeline, decoder and query layer

    A shallow embedding of [src/pyboolnet/trap_spaces.py].

    - Python [str] values are Rocq [string]s (byte strings; names and solver
      output are ASCII in practice), Python [int]s are [Z].
    - Python [dict]s are association lists in insertion order with unique
      keys, because [dict.items()] iterates in insertion order and the
      encoder and the query layer emit one line per item.
    - Exceptions, [sys.exit()], the log, the file system and the current date
      are threaded through a small state-and-error monad [M]. *)

From Stdlib Require Import String Ascii ZArith List Lia Bool.
From Stdlib Require Import Sorting.Sorted Sorting.Permutation.
From Stdlib Require Import Structures.OrdersEx DecimalString DecimalZ DecimalPos.
Import ListNotations.

Local Open Scope string_scope.
Local Open Scope Z_scope.

Set Implicit Arguments.

(** ** Python primitives used by the module *)

Module Py.

(** The double-quote character, used in the emitted facts. *)
Definition dq : string := String "034"%char EmptyString.

(** [quoted s] is [s] between double quotes. *)
Definition quoted (s : string) : string := dq ++ s ++ dq.

(** ['%i' % z] and [f'{z}'] for an [int]. *)
Definition str_of_int (z : Z) : string := NilZero.string_of_int (Z.to_int z).

(** [sep.join(l)]. *)
Definition join (sep : string) (l : list string) : string := String.concat sep l.

(** [len(s)] for a string. *)
Definition len (s : string) : Z := Z.of_nat (String.length s).

Definition of_chars (l : list ascii) : string := string_of_list_ascii l.

(** Normalisation of one slice endpoint against a sequence of length [n]:
    negative indices count from the end, everything is clamped to [0, n]. *)
Definition clamp (n : Z) (i : Z) : Z :=
  if i <? 0 then Z.max (i + n) 0 else Z.min i n.

(** [s[start:stop]] with optional endpoints ([None] is an omitted one). *)
Definition slice (start stop : option Z) (s : string) : string :=
  let n := len s in
  let a := match start with Some i => clamp n i | None => 0 end in
  let b := match stop with Some i => clamp n i | None => n end in
  substring (Z.to_nat a) (Z.to_nat (b - a)) s.

(** [s.split(c)] for a one-character separator: always at least one field. *)
Fixpoint split_on (c : ascii) (s : string) : list string :=
  match s with
  | EmptyString => [EmptyString]
  | String a rest =>
      if Ascii.eqb a c then EmptyString :: split_on c rest
      else match split_on c rest with
           | [] => [String a EmptyString]
           | w :: ws => String a w :: ws
           end
  end.

(** ASCII white space as [str.split()] understands it. *)
Definition is_space (a : ascii) : bool :=
  let n := nat_of_ascii a in
  ((9 <=? n)%nat && (n <=? 13)%nat) || ((28 <=? n)%nat && (n <=? 32)%nat).

(** [s.split()]: fields separated by runs of white space, no empty field.
    [cur] is the field being read, reversed. *)
Fixpoint split_ws_aux (cur : list ascii) (s : string) : list string :=
  let flush := match cur with [] => [] | _ => [of_chars (rev cur)] end in
  match s with
  | EmptyString => flush
  | String a rest =>
      if is_space a then flush ++ split_ws_aux [] rest
      else split_ws_aux (a :: cur) rest
  end.

Definition split_ws (s : string) : list string := split_ws_aux [] s.

(** [needle in hay] for strings. *)
Fixpoint contains (needle hay : string) : bool :=
  if String.prefix needle hay then true
  else match hay with
       | EmptyString => false
       | String _ rest => contains needle rest
       end.

Definition digit_of (a : ascii) : option Z :=
  let n := nat_of_ascii a in
  if ((48 <=? n)%nat && (n <=? 57)%nat)%bool then Some (Z.of_nat n - 48) else None.

(** Value of a non-empty run of decimal digits, [acc] being the value read
    so far. *)
Fixpoint digits (acc : Z) (s : string) : option Z :=
  match s with
  | EmptyString => Some acc
  | String a rest =>
      match digit_of a with
      | Some d => digits (10 * acc + d) rest
      | None => None
      end
  end.

(** [int(s)] for the literals the solver prints: an optional sign followed
    by one or more ASCII digits; [None] stands for [ValueError].  (Python
    also reads digits grouped by underscores and digits outside ASCII; the
    solver prints neither.) *)
Definition int (s : string) : option Z :=
  match s with
  | EmptyString => None
  | String "-"%char (String _ _ as body) => option_map Z.opp (digits 0 body)
  | String "+"%char (String _ _ as body) => digits 0 body
  | _ => digits 0 s
  end.

(** [repr(s)] of a string without quotes, backslashes or control
    characters (variable names): the string between single quotes. *)
Definition repr_str (s : string) : string := "'" ++ s ++ "'".

(** [repr(l)] of a list of such strings. *)
Definition repr_list (l : list string) : string :=
  "[" ++ join ", " (map repr_str l) ++ "]".

End Py.

(** ** Dictionaries in insertion order *)

Module Dict.
Section Defs.
Variable V : Type.

Definition t := list (string * V).

(** [d[k]], [None] when the key is absent. *)
Fixpoint get (d : t) (k : string) : option V :=
  match d with
  | [] => None
  | (k', v) :: rest => if String.eqb k k' then Some v else get rest k
  end.

(** [k in d]. *)
Definition mem (d : t) (k : string) : bool :=
  match get d k with Some _ => true | None => false end.

(** [d[k] = v]: an existing key keeps its position, a new one goes last. *)
Fixpoint set (d : t) (k : string) (v : V) : t :=
  match d with
  | [] => [(k, v)]
  | (k', v') :: rest =>
      if String.eqb k k' then (k', v) :: rest else (k', v') :: set rest k v
  end.

(** [dict(pairs)]. *)
Definition of_list (pairs : list (string * V)) : t :=
  fold_left (fun d kv => set d (fst kv) (snd kv)) pairs [].

Definition keys (d : t) : list string := map fst d.

(** [len(d)]. *)
Definition len (d : t) : Z := Z.of_nat (length d).
End Defs.
End Dict.


(** [sorted(names)]: strings in lexicographic order of their characters. *)
Definition str_le (a b : string) : bool :=
  match String_as_OT.compare a b with Gt => false | _ => true end.

Fixpoint insert_sorted (x : string) (l : list string) : list string :=
  match l with
  | [] => [x]
  | y :: rest => if str_le x y then x :: l else y :: insert_sorted x rest
  end.

Definition sorted (l : list string) : list string :=
  fold_right insert_sorted [] l.

(** ** Exceptions, the log, the world and the monad *)

Inductive Exn : Type :=
| TypeError
| AssertionError
| IndexError
| ValueError
| NameError
| SystemExit                      (* sys.exit() *)
| ProcessError (what : string).   (* raised by the process layer *)

Inductive Outcome (A : Type) : Type :=
| Return (a : A)
| Raise (e : Exn).
Arguments Return {A} a.
Arguments Raise {A} e.

(** A subspace: variable name to fixed value. *)
Definition Subspace : Type := Dict.t Z.

(** What a query returns per solution: a subspace as a dict or as a string,
    or for the circuits variant a pair (circuit nodes, percolated nodes). *)
Inductive Solution : Type :=
| AsDict (d : Subspace)
| AsStr (s : string)
| CircuitDict (circ perc : Subspace)
| CircuitStr (circ perc : string).

Inductive Level : Type := DEBUG | INFO | ERROR.

(** A log record: the level and what was passed to the logger. *)
Inductive LogArg : Type :=
| Text (s : string)
| Solutions (l : list Solution)
| UnknownNames (names : list string)
| Exception (e : Exn).

Definition LogRecord : Type := (Level * LogArg)%type.

Record Date : Type := mkDate { year : Z; month : nat; day : Z }.

Record World : Type := mkWorld {
  today : Date;                 (* datetime.date.today() *)
  files : Dict.t string;        (* path to contents *)
  log : list LogRecord          (* records emitted so far, oldest first *)
}.

Definition M (A : Type) : Type := World -> World * Outcome A.

Definition ret {A} (a : A) : M A := fun w => (w, Return a).

Definition raise {A} (e : Exn) : M A := fun w => (w, Raise e).

Definition bind {A B} (c : M A) (k : A -> M B) : M B :=
  fun w => match c w with
           | (w', Return a) => k a w'
           | (w', Raise e) => (w', Raise e)
           end.

Notation "x <- c ;; k" := (bind c (fun x => k))
  (at level 61, c at next level, right associativity).
Notation "c ;;; k" := (bind c (fun _ => k))
  (at level 61, right associativity).

(** Lifting of a computation that only can raise. *)
Definition lift {A} (o : Outcome A) : M A := fun w => (w, o).

Definition emit (lv : Level) (a : LogArg) : M unit :=
  fun w => (mkWorld (today w) (files w) (log w ++ [(lv, a)])%list, Return tt).

Definition get_today : M Date := fun w => (w, Return (today w)).

Definition get_files : M (Dict.t string) := fun w => (w, Return (files w)).

(** [with open(fname, "w") as f: f.write(text)]; [open(None, "w")] raises
    [TypeError].  Failures of the operating system are outside the model. *)
Definition write_file (fname : option string) (text : string) : M unit :=
  match fname with
  | None => raise TypeError
  | Some path =>
      fun w => (mkWorld (today w) (Dict.set (files w) path text) (log w), Return tt)
  end.

(** [assert b]. *)
Definition assert (b : bool) : M unit :=
  if b then ret tt else raise AssertionError.

(** [sys.exit()]. *)
Definition sys_exit {A} : M A := raise SystemExit.

(** ** Data model *)

(** A prime implicant: a partial assignment, in insertion order. *)
Definition Prime : Type := Dict.t Z.

(** [primes]: each name maps to the primes of value 0 and those of value 1;
    [primes[name][value]] is [select entry value]. *)
Definition Entry : Type := (list Prime * list Prime)%type.
Definition Primes : Type := Dict.t Entry.

Definition select (e : Entry) (value : Z) : list Prime :=
  if value =? 0 then fst e else snd e.

(** An endpoint of [bounds]: an integer or the string "n". *)
Inductive Bound : Type := BInt (z : Z) | BN.

Definition Bounds : Type := option (Bound * Bound).

Definition repr_bound (b : Bound) : string :=
  match b with BInt z => Py.str_of_int z | BN => "'n'" end.

(** [repr(bounds)] of a pair. *)
Definition repr_bounds (b : Bound * Bound) : string :=
  "(" ++ repr_bound (fst b) ++ ", " ++ repr_bound (snd b) ++ ")".

Definition month_abbr (m : nat) : string :=
  nth (m - 1)
    ["Jan"; "Feb"; "Mar"; "Apr"; "May"; "Jun"; "Jul"; "Aug"; "Sep"; "Oct"; "Nov"; "Dec"]
    "".

(** [d.strftime('%d. %b. %Y')] in the C locale. *)
Definition strftime (d : Date) : string :=
  (if day d <? 10 then "0" else "") ++ Py.str_of_int (day d)
  ++ ". " ++ month_abbr (month d) ++ ". " ++ Py.str_of_int (year d).

Definition str_in (x : string) (l : list string) : bool :=
  existsb (String.eqb x) l.

Definition opt_str_in (x : option string) (l : list (option string)) : bool :=
  existsb (fun y => match x, y with
                    | None, None => true
                    | Some a, Some b => String.eqb a b
                    | _, _ => false
                    end) l.

(** ** Encoder: [primes2asp] *)

Definition newline : string := String "010"%char EmptyString.

(** The six leading lines; the first carries the date of creation. *)
Definition header (d : Date) : list string :=
  [ "% created on " ++ strftime d ++ " using PyBoolNet";
    "% PyBoolNet is available at https://github.com/hklarner/PyBoolNet";
    "";
    "% encoding of prime implicants as hyper-arcs that consist of a unique "
      ++ Py.quoted "target" ++ " and (possibly) several " ++ Py.quoted "sources" ++ ".";
    "% " ++ Py.quoted "target" ++ " and " ++ Py.quoted "source"
      ++ " are triplets that consist of a variable name, an activity and a unique arc-identifier. ";
    "" ].

Definition target_fact (name : string) (value index : Z) : string :=
  "target(" ++ Py.quoted name ++ "," ++ Py.str_of_int value
  ++ ",a" ++ Py.str_of_int index ++ ").".

Definition source_fact (index : Z) (nv : string * Z) : string :=
  "source(" ++ Py.quoted (fst nv) ++ "," ++ Py.str_of_int (snd nv)
  ++ ",a" ++ Py.str_of_int index ++ ").".

(** The list [hyper] built for one prime [p] with identifier [index]. *)
Definition hyper (name : string) (value index : Z) (p : Prime) : list string :=
  target_fact name value index :: map (source_fact index) p.

(** State of the three nested loops: the counter [index] and [lines]. *)
Definition ArcState : Type := (Z * list string)%type.

(** Body of [for p in primes[name][value]]. *)
Definition arc_step (name : string) (value : Z) (st : ArcState) (p : Prime) : ArcState :=
  let index := fst st + 1 in
  (index, (snd st ++ [Py.join " " (hyper name value index p)])%list).

(** Body of [for value in [0, 1]]. *)
Definition value_step (name : string) (e : Entry) (st : ArcState) (value : Z) : ArcState :=
  fold_left (arc_step name value) (select e value) st.

(** Body of [for name in sorted(primes.keys())]. *)
Definition name_step (primes : Primes) (st : ArcState) (name : string) : ArcState :=
  match Dict.get primes name with
  | Some e => fold_left (value_step name e) [0; 1] st
  | None => st
  end.

Definition hyperarcs (primes : Primes) (st : ArcState) : ArcState :=
  fold_left (name_step primes) (sorted (Dict.keys primes)) st.

(** Generator, consistency and stability: always present. *)
Definition core_rules : list string :=
  [ "% generator: " ++ Py.quoted "in_set(ID)"
      ++ " specifies which arcs are chosen for a trap set (ID is unique for target(_,_,_)).";
    "{in_set(ID) : target(V,S,ID)}.";
    "";
    "% consistency constraint";
    ":- in_set(ID1), in_set(ID2), target(V,1,ID1), target(V,0,ID2).";
    "";
    "% stability constraint";
    ":- in_set(ID1), source(V,S,ID1), not in_set(ID2) : target(V,S,ID2).";
    "" ].

Definition type_is (type_ : option string) (s : string) : bool :=
  match type_ with Some t => String.eqb t s | None => false end.

(** Percolation closure for 'percolated' and 'circuits', bijection otherwise. *)
Definition closure_rules (type_ : option string) : list string :=
  if type_is type_ "percolated" || type_is type_ "circuits" then
    [ "% percolation constraint.";
      "% ensure that if all sources of a prime are hit then it must belong to the solution.";
      "in_set(ID) :- target(V,S,ID), hit(V1,S1) : source(V1,S1,ID)." ]
  else
    [ "% bijection constraint (between asp solutions and trap spaces)";
      "% to avoid the repetition of equivalent solutions we add all prime implicants";
      "% that agree with the current solution.";
      "in_set(ID) :- target(V,S,ID), hit(V,S), hit(V1,S1) : source(V1,S1,ID)." ].

Definition circuits_rules (type_ : option string) : list string :=
  if type_is type_ "circuits" then
    [ "";
      "% circuits constraint, distinguishes between circuit nodes and percolated nodes";
      "upstream(V1,V2) :- in_set(ID), target(V1,S1,ID), source(V2,S2,ID).";
      "upstream(V1,V2) :- upstream(V1,V3), upstream(V3,V2).";
      "percolated(V1) :- hit(V1,S), not upstream(V1,V1)." ]
  else [].

Definition hit_rule : list string :=
  [ "";
    "% " ++ Py.quoted "hit" ++ " captures the stable variables and their activities.";
    "hit(V,S) :- in_set(ID), target(V,S,ID)." ].

(** [':- {hit(V,S)} %i.' % (lo - 1)]: no solution with fewer than [lo] hits. *)
Definition lower_constraint (lo : Z) : string :=
  ":- {hit(V,S)} " ++ Py.str_of_int (lo - 1) ++ ".".

(** [':- %i {hit(V,S)}.' % (hi + 1)]: no solution with more than [hi] hits. *)
Definition upper_constraint (hi : Z) : string :=
  ":- " ++ Py.str_of_int (hi + 1) ++ " {hit(V,S)}.".

Definition cardinality_comment (b : Bound * Bound) : string :=
  "% cardinality constraint (enforced by "
  ++ Py.quoted ("Bounds=" ++ repr_bounds b) ++ ")".

(** The block under [if bounds:].  Comparing or adding the string "n" to an
    integer raises [TypeError]. *)
Definition cardinality (bounds : Bounds) : Outcome (list string) :=
  match bounds with
  | None => Return []
  | Some (lo, hi) =>
      let head := [""; cardinality_comment (lo, hi)] in
      match lo with
      | BN => Raise TypeError
      | BInt l =>
          let lower := if 0 <? l then [lower_constraint l] else [] in
          match hi with
          | BN => Raise TypeError
          | BInt h => Return (head ++ lower ++ [upper_constraint h])%list
          end
      end
  end.

(** [if extra_lines: lines += extra_lines]. *)
Definition extras (extra_lines : option (list string)) : list string :=
  match extra_lines with Some l => l | None => [] end.

Definition show_hit (name : string) : string :=
  "#show hit(" ++ Py.quoted name ++ ",S) : hit(" ++ Py.quoted name ++ ",S).".

Definition show_comment (names : list string) : string :=
  "% show projection (enforced by "
  ++ Py.quoted ("Project=" ++ Py.repr_list (sorted names)) ++ ").".

(** The output directives; an empty [project] is falsy like [None]. *)
Definition show (project : option (list string)) (type_ : option string) : list string :=
  match project with
  | Some ((_ :: _) as names) =>
      ([""; show_comment names] ++ ["#show."] ++ map show_hit names)%list
  | _ =>
      if type_is type_ "circuits" then
        [ "";
          "% show fixed nodes and distinguish between circuits and percolated";
          "#show percolated/1.";
          "#show hit/2." ]
      else
        [ "";
          "% show fixed nodes";
          "#show hit/2." ]
  end.

(** [if project: project = [x for x in project if x in primes]]. *)
Definition restrict_project (primes : Primes) (project : option (list string))
  : option (list string) :=
  match project with
  | Some ((_ :: _) as names) => Some (filter (Dict.mem primes) names)
  | other => other
  end.

(** The list [lines] as it stands when it is joined, for creation date [d]. *)
Definition asp_lines (d : Date) (primes : Primes) (bounds : Bounds)
    (project : option (list string)) (type_ : option string)
    (extra_lines : option (list string)) : Outcome (list string) :=
  let project := restrict_project primes project in
  let lines := snd (hyperarcs primes (0, header d)) in
  let lines := (lines ++ [""])%list in
  let lines := (lines ++ core_rules)%list in
  let lines := (lines ++ closure_rules type_)%list in
  let lines := (lines ++ circuits_rules type_)%list in
  let lines := (lines ++ hit_rule)%list in
  match cardinality bounds with
  | Raise e => Raise e
  | Return card =>
      let lines := (lines ++ card)%list in
      let lines := (lines ++ extras extra_lines)%list in
      Return (lines ++ show project type_)%list
  end.

Definition known_types : list (option string) :=
  [None; Some "max"; Some "min"; Some "all"; Some "percolated"; Some "circuits"].

Definition primes2asp (primes : Primes) (fname_asp : option string) (bounds : Bounds)
    (project : option (list string)) (type_ : option string)
    (extra_lines : option (list string)) : M string :=
  assert (opt_str_in type_ known_types) ;;;
  d <- get_today ;;
  lines <- lift (asp_lines d primes bounds project type_ extra_lines) ;;
  let asp_text := Py.join newline lines in
  write_file fname_asp asp_text ;;;
  emit INFO (Text ("created " ++ match fname_asp with Some f => f | None => "None" end)) ;;;
  ret asp_text.

(** ** External collaborators *)

(** What the two chained processes did: the first [Popen] raised (the name
    [cmd_clasp] is then still unbound), a later statement of the [try] block
    raised, or both streams were read to the end. *)
Inductive PipelineResult : Type :=
| GringoSpawnFails (e : Exn)
| PipelineFails (e : Exn)
| Completed (output error : string).

(** Functions and constants this module imports or resolves at load time.
    [run_processes cmd_gringo cmd_clasp stdin files] stands for the grounder
    piped into the solver; [stdin] is the text written to the grounder, if
    any, and [files] the file system it can read. *)
Class Collaborators : Type := {
  CMD_GRINGO : string;
  CMD_CLASP : string;
  active_primes : Primes -> Subspace -> Primes;
  subspace2dict : Primes -> string -> Subspace;
  subspace2str : Primes -> Subspace -> string;
  run_processes :
    list string -> list string -> option string -> Dict.t string -> PipelineResult
}.

(** ** Decoder: the tail of [potassco_handle] *)

Fixpoint mapM {A B : Type} (f : A -> Outcome B) (l : list A) : Outcome (list B) :=
  match l with
  | [] => Return []
  | x :: rest =>
      match f x with
      | Raise e => Raise e
      | Return y =>
          match mapM f rest with
          | Raise e => Raise e
          | Return ys => Return (y :: ys)
          end
      end
  end.

(** One fact [hit("name",value)]: [x[4:-1].split(",")], then
    [(x[0][1:-1], int(x[1]))]. *)
Definition parse_hit (x : string) : Outcome (string * Z) :=
  match Py.split_on ","%char (Py.slice (Some 4) (Some (-1)) x) with
  | f0 :: f1 :: _ =>
      match Py.int f1 with
      | Some v => Return (Py.slice (Some 1) (Some (-1)) f0, v)
      | None => Raise ValueError
      end
  | _ => Raise IndexError
  end.

(** The line after an "Answer" line, for every variant but circuits. *)
Definition parse_subspace (line : string) : Outcome Solution :=
  match mapM parse_hit (Py.split_ws line) with
  | Raise e => Raise e
  | Return d => Return (AsDict (Dict.of_list d))
  end.

(** The line after an "Answer" line for the circuits variant. *)
Definition parse_circuit (line : string) : Outcome Solution :=
  match mapM parse_hit (filter (Py.contains "hit") (Py.split_ws line)) with
  | Raise e => Raise e
  | Return tspace =>
      let names :=
        map (Py.slice (Some 12) (Some (-2)))
            (filter (Py.contains "perc") (Py.split_ws line)) in
      let perc := Dict.of_list (filter (fun x => str_in (fst x) names) tspace) in
      let circ := Dict.of_list (filter (fun x => negb (Dict.mem perc (fst x))) tspace) in
      Return (CircuitDict circ perc)
  end.

(** [while lines and len(result) < max_output: ...]. *)
Fixpoint decode_loop (parse : string -> Outcome Solution) (max_output : Z)
    (lines : list string) (result : list Solution) : Outcome (list Solution) :=
  match lines with
  | [] => Return result
  | line :: rest =>
      if Z.of_nat (length result) <? max_output then
        if String.eqb (Py.slice None (Some 6) line) "Answer" then
          match rest with
          | [] => Raise IndexError
          | line' :: rest' =>
              match parse line' with
              | Raise e => Raise e
              | Return sol => decode_loop parse max_output rest' (result ++ [sol])%list
              end
          end
        else decode_loop parse max_output rest result
      else Return result
  end.

Definition parser_of (type_ : string) : string -> Outcome Solution :=
  if String.eqb type_ "circuits" then parse_circuit else parse_subspace.

(** From [lines = output.split("\n")] to the end of the two loops. *)
Definition decode (type_ : string) (output : string) (max_output : Z)
  : Outcome (list Solution) :=
  decode_loop (parser_of type_) max_output (Py.split_on "010"%char output) [].

Definition more_notice (max_output : Z) : list LogRecord :=
  [ (INFO, Text ("There are possibly more than " ++ Py.str_of_int max_output ++ " trap spaces."));
    (INFO, Text "Increase MaxOutput to find out.") ].

(** Decoding followed by [if len(result) == max_output: log.info(...)]. *)
Definition decoder (type_ : string) (output : string) (max_output : Z)
  : M (list Solution) :=
  result <- lift (decode type_ output max_output) ;;
  (if Z.of_nat (length result) =? max_output then
     emit INFO (Text ("There are possibly more than " ++ Py.str_of_int max_output ++ " trap spaces.")) ;;;
     emit INFO (Text "Increase MaxOutput to find out.")
   else ret tt) ;;;
  ret result.

(** ** Solver pipeline: [potassco_handle] *)

Section Queries.

Context {collab : Collaborators}.

(** [tuple([len(primes) if x == "n" else x for x in bounds])]. *)
Definition resolve_bound (primes : Primes) (b : Bound) : Bound :=
  match b with BN => BInt (Dict.len primes) | BInt z => BInt z end.

Definition resolve_bounds (primes : Primes) (bounds : Bounds) : Bounds :=
  match bounds with
  | Some (lo, hi) => Some (resolve_bound primes lo, resolve_bound primes hi)
  | None => None
  end.

Definition params_clasp (type_ : string) : list string :=
  ("--project" ::
   (if String.eqb type_ "max" then
      ["--enum-mode=domRec"; "--heuristic=Domain"; "--dom-mod=5,16"]
    else if String.eqb type_ "min" then
      ["--enum-mode=domRec"; "--heuristic=Domain"; "--dom-mod=3,16"]
    else []))%list.

Definition command_line (cmd_gringo cmd_clasp : list string) : string :=
  Py.join " " (cmd_gringo ++ ["|"] ++ cmd_clasp)%list.

(** The [try] block and its handler: the streams of the solver, or the
    exception re-raised after logging. *)
Definition run_pipeline (asp_text : string) (fname_asp : option string)
    (cmd_gringo cmd_clasp : list string) : M (string * string) :=
  fs <- get_files ;;
  let stdin := match fname_asp with None => Some asp_text | Some _ => None end in
  match run_processes cmd_gringo cmd_clasp stdin fs with
  | Completed output error => ret (output, error)
  | GringoSpawnFails e =>
      emit ERROR (Text asp_text) ;;;
      emit ERROR (Exception e) ;;;
      emit ERROR (Text "Call to gringo and / or clasp failed.") ;;;
      match fname_asp with
      | Some _ => raise NameError
      | None => raise e
      end
  | PipelineFails e =>
      emit ERROR (Text asp_text) ;;;
      emit ERROR (Exception e) ;;;
      emit ERROR (Text "Call to gringo and / or clasp failed.") ;;;
      match fname_asp with
      | Some _ => emit INFO (Text ("command: " ++ command_line cmd_gringo cmd_clasp))
      | None => ret tt
      end ;;;
      raise e
  end.

(** [subspace2str] over one solution when [representation == "str"]. *)
Definition render (primes : Primes) (representation : string) (s : Solution) : Solution :=
  if String.eqb representation "str" then
    match s with
    | AsDict d => AsStr (subspace2str primes d)
    | CircuitDict c p => CircuitStr (subspace2str primes c) (subspace2str primes p)
    | other => other
    end
  else s.

Definition potassco_handle (primes : Primes) (type_ : string) (bounds : Bounds)
    (project : option (list string)) (max_output : Z) (fname_asp : option string)
    (representation : string) (extra_lines : option (list string))
  : M (list Solution) :=
  (if str_in type_ ["max"; "min"; "all"; "percolated"; "circuits"] then ret tt
   else emit ERROR (Text ("unknown trap space type: type=" ++ type_)) ;;; sys_exit) ;;;
  (if str_in representation ["str"; "dict"] then ret tt
   else emit ERROR (Text ("unknown trap space representation: representation="
                          ++ representation)) ;;; sys_exit) ;;;
  let bounds := resolve_bounds primes bounds in
  asp_text <- primes2asp primes fname_asp bounds project (Some type_) extra_lines ;;
  let cmd_gringo :=
    match fname_asp with None => [CMD_GRINGO] | Some f => [CMD_GRINGO; f] end in
  let cmd_clasp :=
    CMD_CLASP :: ("--models=" ++ Py.str_of_int max_output) :: params_clasp type_ in
  streams <- run_pipeline asp_text fname_asp cmd_gringo cmd_clasp ;;
  let output := fst streams in
  let error := snd streams in
  (if Py.contains "ERROR" error then
     emit ERROR (Text "Call to gringo and / or clasp failed.") ;;;
     match fname_asp with
     | Some _ => emit ERROR (Text ("asp file: " ++ asp_text))
     | None => ret tt
     end ;;;
     emit ERROR (Text ("command: " ++ command_line cmd_gringo cmd_clasp)) ;;;
     emit ERROR (Text ("error: " ++ error)) ;;;
     sys_exit
   else ret tt) ;;;
  emit DEBUG (Text asp_text) ;;;
  emit DEBUG (Text ("cmd_gringo=" ++ Py.join " " cmd_gringo)) ;;;
  emit DEBUG (Text ("cmd_clasp=" ++ Py.join " " cmd_clasp)) ;;;
  emit DEBUG (Text error) ;;;
  emit DEBUG (Text output) ;;;
  result <- decoder type_ output max_output ;;
  ret (map (render primes representation) result).

(** ** Query layer *)

(** A [subspace] argument: the queries accept a dict or its string form. *)
Inductive SubspaceArg : Type :=
| GivenDict (d : Subspace)
| GivenStr (s : string).

(** [len(subspace)]. *)
Definition arg_len (a : SubspaceArg) : Z :=
  match a with GivenDict d => Dict.len d | GivenStr s => Py.len s end.

(** [not subspace]. *)
Definition arg_falsy (a : SubspaceArg) : bool :=
  match a with
  | GivenDict [] => true
  | GivenStr EmptyString => true
  | _ => false
  end.

(** [if type(subspace) == str: subspace = subspace2dict(primes, subspace)]. *)
Definition as_dict (primes : Primes) (a : SubspaceArg) : Subspace :=
  match a with GivenDict d => d | GivenStr s => subspace2dict primes s end.

Definition circuits (primes : Primes) (max_output : Z) (fname_asp : option string)
    (representation : string) : M (list Solution) :=
  potassco_handle primes "circuits" (Some (BInt 0, BN)) None max_output fname_asp
                  representation None.

Definition trap_spaces (primes : Primes) (option_ : string) (max_output : Z)
    (fname_asp : option string) (representation : string) : M (list Solution) :=
  let Bounds := if String.eqb option_ "max" then Some (BInt 1, BN) else None in
  potassco_handle primes option_ Bounds None max_output fname_asp representation None.

(** [tspaces.pop()]: the last element. *)
Definition pop (l : list Solution) : M Solution :=
  match rev l with
  | x :: _ => ret x
  | [] => raise IndexError
  end.

Definition trapspaces_that_intersect_subspace (primes : Primes) (subspace : SubspaceArg)
    (type_ : string) (fname_asp : option string) (representation : string)
    (max_output : Z) : M (list Solution) :=
  assert (arg_len subspace <=? Dict.len primes) ;;;
  let subspace := as_dict primes subspace in
  let relevant_primes := active_primes primes subspace in
  let bounds := if String.eqb type_ "max" then Some (BInt 1, BN) else None in
  tspaces <- potassco_handle relevant_primes type_ bounds (Some []) max_output
                             fname_asp representation None ;;
  match tspaces with
  | [] =>
      let answer : Subspace := [] in
      ret [if String.eqb representation "str"
           then AsStr (subspace2str primes answer) else AsDict answer]
  | _ =>
      if (Dict.len subspace =? Dict.len primes) && String.eqb type_ "min" then
        if 1 <? Z.of_nat (length tspaces) then
          emit ERROR (Text "the smallest trap space containing a state (or other space) must be unique!") ;;;
          emit ERROR (Text ("found " ++ Py.str_of_int (Z.of_nat (length tspaces))
                            ++ " smallest tspaces.")) ;;;
          emit ERROR (Solutions tspaces) ;;;
          sys_exit
        else
          x <- pop tspaces ;; ret [x]
      else ret tspaces
  end.

Definition trapspaces_that_contain_state (primes : Primes) (state : SubspaceArg)
    (type_ : string) (fname_asp : option string) (representation : string)
    (max_output : Z) : M (list Solution) :=
  trapspaces_that_intersect_subspace primes state type_ fname_asp representation max_output.

(** [f':- not hit("{node}",{value}).']. *)
Definition must_hit (nv : string * Z) : string :=
  ":- not hit(" ++ Py.quoted (fst nv) ++ "," ++ Py.str_of_int (snd nv) ++ ").".

Definition trapspaces_within_subspace (primes : Primes) (subspace : SubspaceArg)
    (type_ : string) (fname_asp : option string) (representation : string)
    (max_output : Z) : M (list Solution) :=
  if arg_falsy subspace then
    trap_spaces primes type_ max_output fname_asp representation
  else
    assert (arg_len subspace <=? Dict.len primes) ;;;
    let subspace := as_dict primes subspace in
    let relevant_primes := active_primes primes subspace in
    let bounds := Some (BInt (Dict.len subspace), BN) in
    let extra_lines := (map must_hit subspace ++ [""])%list in
    potassco_handle relevant_primes type_ bounds (Some []) max_output fname_asp
                    representation (Some extra_lines).

Definition smallest_trapspace (primes : Primes) (state : SubspaceArg)
    (representation : string) : M (list Solution) :=
  trapspaces_that_contain_state primes state "min" None representation 1000.

Definition steady_states (primes : Primes) (max_output : Z) (fname_asp : option string)
    (representation : string) : M (list Solution) :=
  potassco_handle primes "all" (Some (BN, BN)) (Some []) max_output fname_asp
                  representation None.

Definition trap_spaces_bounded (primes : Primes) (type_ : string) (bounds : Bounds)
    (max_output : Z) (fname_asp : option string) : M (list Solution) :=
  potassco_handle primes type_ bounds None max_output fname_asp "dict" None.

(** [set(project).difference(set(primes))], listed in order of first
    occurrence in [project] (a Python set has no order of its own). *)
Definition unknown_names (primes : Primes) (project : list string) : list string :=
  nodup string_dec (filter (fun x => negb (Dict.mem primes x)) project).

Definition steady_states_projected (primes : Primes) (project : list string)
    (max_output : Z) (fname_asp : option string) : M (list Solution) :=
  match unknown_names primes project with
  | _ :: _ =>
      emit ERROR (UnknownNames (unknown_names primes project)) ;;;
      sys_exit
  | [] =>
      potassco_handle primes "all" (Some (BN, BN)) (Some project) max_output fname_asp
                      "dict" None
  end.

End Queries.

(** ** Percolation of a subspace: [percolate_trapspace]

    Python passes [primes] by reference, so the caller's dict and the dict the
    function works on are one object unless a copy is made.  Objects live in
    a heap and are named by their address. *)

Module Percolation.

















End Percolation.

(** ** Vocabulary of the statements *)

(** The world after a successful [primes2asp] on file [f]. *)
Definition written (w : World) (f text : string) : World :=
  mkWorld (today w) (Dict.set (files w) f text)
          (log w ++ [(INFO, Text ("created " ++ f))])%list.

(** The lines that do not depend on [bounds], up to the cardinality block. *)
Definition rules (d : Date) (primes : Primes) (type_ : option string) : list string :=
  (snd (hyperarcs primes (0, header d)) ++ [""] ++ core_rules ++ closure_rules type_
   ++ circuits_rules type_ ++ hit_rule)%list.

(** The lines after the cardinality block. *)
Definition trailer (primes : Primes) (project : option (list string))
    (type_ : option string) (extra_lines : option (list string)) : list string :=
  (extras extra_lines ++ show (restrict_project primes project) type_)%list.

(** The cardinality block for integer bounds [(lo, hi)]. *)
Definition cardinality_block (lo hi : Z) : list string :=
  ([""; cardinality_comment (BInt lo, BInt hi)]
   ++ (if 0 <? lo then [lower_constraint lo] else [])
   ++ [upper_constraint hi])%list.

(** The first line of the text, the only one that names the date. *)
Definition created_line (d : Date) : string :=
  "% created on " ++ strftime d ++ " using PyBoolNet".

Definition entry_of (primes : Primes) (name : string) : Entry :=
  match Dict.get primes name with Some e => e | None => ([], []) end.

(** The primes of one variable: those of value 0, then those of value 1. *)
Definition arcs_of_name (primes : Primes) (name : string) : list (string * Z * Prime) :=
  flat_map (fun value => map (fun p => (name, value, p)) (select (entry_of primes name) value))
           [0; 1].

(** All primes in the order of the identifiers: variables in ascending
    order of their names, value 0 before value 1, primes as listed. *)
Definition arc_list (primes : Primes) : list (string * Z * Prime) :=
  flat_map (arcs_of_name primes) (sorted (Dict.keys primes)).

(** The hyper-arc lines of [arcs], numbered consecutively after [start]. *)
Fixpoint arc_lines (start : Z) (arcs : list (string * Z * Prime)) : list string :=
  match arcs with
  | [] => []
  | (name, value, p) :: rest =>
      Py.join " " (hyper name value (start + 1) p) :: arc_lines (start + 1) rest
  end.

(** The world [w] with further records in its log. *)
Definition logged (w : World) (records : list LogRecord) : World :=
  mkWorld (today w) (files w) (log w ++ records)%list.


(** The three records logged when a state has several smallest trap spaces. *)
Definition uniqueness_errors (tspaces : list Solution) : list LogRecord :=
  [ (ERROR, Text "the smallest trap space containing a state (or other space) must be unique!");
    (ERROR, Text ("found " ++ Py.str_of_int (Z.of_nat (length tspaces))
                  ++ " smallest tspaces."));
    (ERROR, Solutions tspaces) ].

Section Answers.
Context {collab : Collaborators}.

(** The empty subspace in the representation asked for. *)
Definition empty_answer (primes : Primes) (representation : string) : Solution :=
  if String.eqb representation "str" then AsStr (subspace2str primes []) else AsDict [].

End Answers.

(** What a query may do to the world: add records to the log and write the
    file it was given.  The date and every other file stay as they are. *)
Definition touches (fname : option string) (w w' : World) : Prop :=
  today w' = today w
  /\ (exists records, log w' = (log w ++ records)%list)
  /\ (forall g, fname <> Some g -> Dict.get (files w') g = Dict.get (files w) g).

(** [c] does no more than that, whatever its outcome. *)
Definition frames (fname : option string) {A : Type} (c : M A) : Prop :=
  forall w w' o, c w = (w', o) -> touches fname w w'.

(** The form of a solution for a variant and a representation: a pair for
    circuits, one subspace otherwise; strings for "str", dicts otherwise. *)
Definition well_shaped (type_ representation : string) (s : Solution) : bool :=
  match s with
  | AsDict _ => negb (String.eqb type_ "circuits") && negb (String.eqb representation "str")
  | AsStr _ => negb (String.eqb type_ "circuits") && String.eqb representation "str"
  | CircuitDict _ _ => String.eqb type_ "circuits" && negb (String.eqb representation "str")
  | CircuitStr _ _ => String.eqb type_ "circuits" && String.eqb representation "str"
  end.

(** A line that opens an answer block: [line[:6] == "Answer"]. *)
Definition is_answer (line : string) : bool :=
  String.eqb (Py.slice None (Some 6) line) "Answer".

(** An endpoint given as the string "n". *)
Definition symbolic (b : Bound) : bool :=
  match b with BN => true | BInt _ => false end.

(** No character of [s] is a [bad] one. *)
Definition free_of (bad : ascii -> bool) (s : string) : bool :=
  forallb (fun c => negb (bad c)) (list_ascii_of_string s).

Definition is_comma (c : ascii) : bool := Ascii.eqb c ","%char.

(** The atom the solver prints for a fixed variable, as the text declares
    it: [hit("name",value)]. *)
Definition hit_atom (nv : string * Z) : string :=
  "hit(" ++ Py.quoted (fst nv) ++ "," ++ Py.str_of_int (snd nv) ++ ")".

(** A character outside ASCII.  On ASCII text the model and Python agree on
    what white space is. *)
Definition non_ascii (c : ascii) : bool := (128 <=? nat_of_ascii c)%nat.


(** The five records logged at debug level once the processes are through. *)
Definition debug_records (asp_text : string) (cmd_gringo cmd_clasp : list string)
    (error output : string) : list LogRecord :=
  [ (DEBUG, Text asp_text);
    (DEBUG, Text ("cmd_gringo=" ++ Py.join " " cmd_gringo));
    (DEBUG, Text ("cmd_clasp=" ++ Py.join " " cmd_clasp));
    (DEBUG, Text error);
    (DEBUG, Text output) ].

Section Commands.
Context {collab : Collaborators}.

(** The command line of the solver for a cap and a variant. *)
Definition clasp_command (max_output : Z) (type_ : string) : list string :=
  CMD_CLASP :: ("--models=" ++ Py.str_of_int max_output) :: params_clasp type_.

End Commands.

(** ** Sample data

    A three-variable network (Raf = not Erk, Mek = Raf, Erk = Mek), a world
    and a stand-in for the external processes, used to run the definitions. *)

Module Sample.

Definition primes : Primes :=
  [ ("Raf", ([ [("Erk", 1)] ], [ [("Erk", 0)] ]));
    ("Mek", ([ [("Raf", 0)] ], [ [("Raf", 1)] ]));
    ("Erk", ([ [("Mek", 0)] ], [ [("Mek", 1)] ])) ].

Definition world : World := mkWorld (mkDate 2024 3 9) [] [].

Definition next_day : World := mkWorld (mkDate 2024 3 10) [] [].

Definition hit (name : string) (value : Z) : string :=
  "hit(" ++ Py.quoted name ++ "," ++ Py.str_of_int value ++ ")".

(** What the solver prints for two answers. *)
Definition two_answers : string :=
  Py.join newline
    [ "clasp version 3.3.4";
      "Solving...";
      "Answer: 1";
      hit "Erk" 0 ++ " " ++ hit "Mek" 0 ++ " " ++ hit "Raf" 1;
      "Answer: 2";
      hit "Erk" 1 ++ " " ++ hit "Mek" 1 ++ " " ++ hit "Raf" 0;
      "SATISFIABLE";
      "" ].

Definition no_answer : string :=
  Py.join newline ["clasp version 3.3.4"; "Solving..."; "UNSATISFIABLE"; ""].

Definition bits (p : Primes) (d : Subspace) : string :=
  String.concat ""
    (map (fun n => match Dict.get d n with
                   | Some v => Py.str_of_int v
                   | None => "-"
                   end) (sorted (Dict.keys p))).

(** Collaborators whose solver always prints [output]. *)
Definition collaborators (output : string) : Collaborators :=
  {| CMD_GRINGO := "gringo";
     CMD_CLASP := "clasp";
     active_primes := fun p _ => p;
     subspace2dict := fun _ _ => [];
     subspace2str := bits;
     run_processes := fun _ _ _ _ => Completed output "" |}.

(** A solver that finds nothing, and one that finds two answers. *)
Definition quiet : Collaborators := collaborators no_answer.
Definition talkative : Collaborators := collaborators two_answers.

End Sample.

(** Stand-ins for external processes that go wrong. *)
Module Faulty.





End Faulty.

(** Stand-ins for a solver that looks at the program it is given. *)
Module Reading.





(** What a solver prints for two steady states when only Raf is shown. *)
Definition projected_answers : string :=
  Py.join newline
    [ "Answer: 1"; Sample.hit "Raf" 1; "Answer: 2"; Sample.hit "Raf" 0;
      "SATISFIABLE"; "" ].

Definition projecting : Collaborators := Sample.collaborators projected_answers.

End Reading.

(** * Properties *)

(** ** The monad and the encoder: shared lemmas *)

Lemma bind_Return {A B} (c : M A) (k : A -> M B) w w' a :
  c w = (w', Return a) -> bind c k w = k a w'.
Proof. intros H. unfold bind. rewrite H. reflexivity. Qed.

Lemma bind_Raise {A B} (c : M A) (k : A -> M B) w w' e :
  c w = (w', Raise e) -> bind c k w = (w', Raise e).
Proof. intros H. unfold bind. rewrite H. reflexivity. Qed.

Lemma primes2asp_to_file primes f bounds project type_ extra w lines :
  opt_str_in type_ known_types = true ->
  asp_lines (today w) primes bounds project type_ extra = Return lines ->
  primes2asp primes (Some f) bounds project type_ extra w
  = (written w f (Py.join newline lines), Return (Py.join newline lines)).
Proof.
  intros Ht Hl. unfold primes2asp, assert. rewrite Ht.
  unfold bind, ret, get_today, lift. rewrite Hl. reflexivity.
Qed.

Lemma asp_lines_eq d primes bounds project type_ extra :
  asp_lines d primes bounds project type_ extra
  = match cardinality bounds with
    | Raise e => Raise e
    | Return card =>
        Return (rules d primes type_ ++ card ++ trailer primes project type_ extra)%list
    end.
Proof.
  unfold asp_lines, rules, trailer.
  destruct (cardinality bounds) as [card | e]; [| reflexivity].
  f_equal. repeat rewrite <- app_assoc. reflexivity.
Qed.

Lemma str_in_In x l : str_in x l = true <-> In x l.
Proof.
  unfold str_in. rewrite existsb_exists. split.
  - intros [y [Hy He]]. apply String.eqb_eq in He. subst. exact Hy.
  - intros H. exists x. split; [exact H | apply String.eqb_refl].
Qed.

Lemma not_str_in_In x l : str_in x l = false -> ~ In x l.
Proof.
  intros H Hin. apply str_in_In in Hin. rewrite Hin in H. discriminate H.
Qed.

(** ** C1: the cardinality constraints *)

(** C1, as stated, fails: with the bounds [(0, 3)], which is what the
    circuits query passes once "n" is resolved, the text has the constraint
    on too many hits but none on too few. *)
Lemma no_lower_constraint_for_zero :
  exists lines,
    asp_lines (today Sample.world) Sample.primes (Some (BInt 0, BInt 3)) None
              (Some "circuits") None = Return lines
    /\ In (upper_constraint 3) lines
    /\ ~ In (lower_constraint 0) lines
    /\ existsb (String.prefix ":- {hit(V,S)}") lines = false.
Proof.
  eexists. split; [vm_compute; reflexivity |].
  split; [apply str_in_In; vm_compute; reflexivity |].
  split; [apply not_str_in_In; vm_compute; reflexivity |].
  vm_compute. reflexivity.
Qed.

(** C1 (amended): for integer bounds [(lo, hi)] and a destination file, the
    encoder returns the joined lines; they contain the constraint that forbids
    more than [hi] hit facts, and the one that forbids fewer than [lo] when
    [lo > 0].  When [lo <= 0] the block added for the bounds is the comment
    and the upper constraint only. *)
Theorem cardinality_constraints_emitted :
  forall w primes f lo hi project type_ extra,
    opt_str_in type_ known_types = true ->
    exists lines,
      primes2asp primes (Some f) (Some (BInt lo, BInt hi)) project type_ extra w
      = (written w f (Py.join newline lines), Return (Py.join newline lines))
      /\ lines = (rules (today w) primes type_ ++ cardinality_block lo hi
                  ++ trailer primes project type_ extra)%list
      /\ In (upper_constraint hi) lines
      /\ (0 < lo -> In (lower_constraint lo) lines)
      /\ (lo <= 0 ->
          cardinality_block lo hi
          = [""; cardinality_comment (BInt lo, BInt hi); upper_constraint hi]).
Proof.
  intros w primes f lo hi project type_ extra Ht.
  eexists. split; [| split; [reflexivity |]].
  - apply primes2asp_to_file; [exact Ht |].
    rewrite asp_lines_eq. reflexivity.
  - unfold cardinality_block. split; [| split].
    + apply in_or_app. right. apply in_or_app. left.
      apply in_or_app. right. apply in_or_app. right. left. reflexivity.
    + intros Hlo. apply Z.ltb_lt in Hlo. rewrite Hlo.
      apply in_or_app. right. apply in_or_app. left.
      apply in_or_app. right. apply in_or_app. left. left. reflexivity.
    + intros Hlo. destruct (Z.ltb_spec 0 lo) as [Hpos | _]; [lia | reflexivity].
Qed.

Lemma cardinality_constraints_emitted_witness :
  opt_str_in (Some "min") known_types = true
  /\ exists lines,
       primes2asp Sample.primes (Some "net.asp") (Some (BInt 2, BInt 3)) None
                  (Some "min") None Sample.world
       = (written Sample.world "net.asp" (Py.join newline lines),
          Return (Py.join newline lines))
       /\ In (upper_constraint 3) lines
       /\ In (lower_constraint 2) lines.
Proof.
  split; [reflexivity |].
  destruct (cardinality_constraints_emitted Sample.world Sample.primes "net.asp"
              2 3 None (Some "min") None eq_refl)
    as [lines [Hrun [_ [Hup [Hlo _]]]]].
  exists lines. split; [exact Hrun |]. split; [exact Hup |].
  apply Hlo. reflexivity.
Defined.

(** ** C2: the destination file *)

(** C2: the claim asks that without a destination the encoder returns the
    text and writes nothing.  The code opens the destination unconditionally:
    with [fname_asp = None] the encoder never returns the text, it raises
    [TypeError] (or [AssertionError] for an unknown variant) and leaves the
    world as it was; every query built on it raises as well. *)
Theorem primes2asp_without_file_raises :
  forall (collab : Collaborators) primes bounds project extra w,
    (forall type_,
        primes2asp primes None bounds project type_ extra w
        = (w, Raise (if opt_str_in type_ known_types
                     then TypeError else AssertionError)))
    /\ (forall type_ max_output representation,
           exists w' e,
             potassco_handle primes type_ bounds project max_output None
                             representation extra w = (w', Raise e)).
Proof.
  intros collab primes bounds project extra w.
  assert (Henc : forall b type_,
             primes2asp primes None b project type_ extra w
             = (w, Raise (if opt_str_in type_ known_types
                          then TypeError else AssertionError))).
  { intros b type_. unfold primes2asp, assert.
    destruct (opt_str_in type_ known_types); [| reflexivity].
    unfold bind, ret, get_today, lift. rewrite asp_lines_eq.
    destruct (cardinality b) as [card | e] eqn:Hcard; [reflexivity |].
    unfold cardinality in Hcard.
    destruct b as [[[lo |] [hi |]] |]; try discriminate Hcard;
      injection Hcard as <-; reflexivity. }
  split; [apply Henc |].
  intros type_ max_output representation. unfold potassco_handle.
  destruct (str_in type_ _).
  - destruct (str_in representation _).
    + unfold bind at 1. unfold ret at 1. unfold bind at 1. unfold ret at 1.
      eexists. eexists. eapply bind_Raise. apply Henc.
    + eexists. eexists. reflexivity.
  - eexists. eexists. reflexivity.
Qed.

(** ** C10: an empty projection list *)

(** C10: with [project = []] the encoder does exactly what it does with
    [project = None]: same outcome, same world, same lines; the directives
    are the unprojected ones, which show every hit fact. *)
Theorem empty_projection_is_no_projection :
  forall primes fname bounds type_ extra w,
    primes2asp primes fname bounds (Some []) type_ extra w
    = primes2asp primes fname bounds None type_ extra w
    /\ asp_lines (today w) primes bounds (Some []) type_ extra
       = asp_lines (today w) primes bounds None type_ extra
    /\ show (restrict_project primes (Some [])) type_ = show None type_
    /\ In "#show hit/2." (show (restrict_project primes (Some [])) type_)
    /\ ~ In "#show." (show (restrict_project primes (Some [])) type_).
Proof.
  intros primes fname bounds type_ extra w.
  split; [reflexivity |]. split; [reflexivity |]. split; [reflexivity |].
  unfold restrict_project, show.
  destruct (type_is type_ "circuits"); split;
    try (apply str_in_In; reflexivity);
    apply not_str_in_In; reflexivity.
Qed.

(** ** C6: reproducible encodings *)

Lemma str_le_total a b : str_le a b = true \/ str_le b a = true.
Proof.
  unfold str_le.
  destruct (String_as_OT.compare_spec a b) as [E | L | G]; auto.
  right. destruct (String_as_OT.compare_spec b a) as [E' | L' | G']; auto.
  exfalso. destruct String_as_OT.lt_strorder as [irr tr].
  exact (irr a (tr _ _ _ G' G)).
Qed.

Lemma str_le_trans a b c : str_le a b = true -> str_le b c = true -> str_le a c = true.
Proof.
  unfold str_le. intros Hab Hbc.
  destruct String_as_OT.lt_strorder as [irr tr].
  destruct (String_as_OT.compare_spec a b) as [E | L | G]; try discriminate Hab;
    destruct (String_as_OT.compare_spec b c) as [E' | L' | G']; try discriminate Hbc;
    destruct (String_as_OT.compare_spec a c) as [E'' | L'' | G'']; try reflexivity;
    exfalso; unfold String_as_OT.eq in *; subst.
  - exact (irr _ G'').
  - exact (irr _ (tr _ _ _ L' G'')).
  - exact (irr _ (tr _ _ _ L G'')).
  - exact (irr _ (tr _ _ _ (tr _ _ _ L L') G'')).
Qed.

Lemma insert_sorted_perm x l : Permutation (x :: l) (insert_sorted x l).
Proof.
  induction l as [| y rest IH]; simpl.
  - apply Permutation_refl.
  - destruct (str_le x y).
    + apply Permutation_refl.
    + eapply perm_trans; [apply perm_swap |]. apply perm_skip. exact IH.
Qed.

Lemma sorted_perm l : Permutation l (sorted l).
Proof.
  induction l as [| x rest IH]; simpl.
  - apply perm_nil.
  - eapply perm_trans; [| apply insert_sorted_perm]. apply perm_skip. exact IH.
Qed.

Lemma insert_sorted_ordered x l :
  StronglySorted (fun a b => str_le a b = true) l ->
  StronglySorted (fun a b => str_le a b = true) (insert_sorted x l).
Proof.
  induction l as [| y rest IH]; intros Hs; simpl.
  - constructor; [constructor | constructor].
  - inversion Hs as [| y' rest' Hrest Hall]; subst.
    destruct (str_le x y) eqn:Hxy.
    + constructor; [exact Hs |]. constructor; [exact Hxy |].
      eapply Forall_impl; [| exact Hall].
      intros z Hz. eapply str_le_trans; eassumption.
    + constructor; [apply IH; exact Hrest |].
      assert (Hyx : str_le y x = true).
      { destruct (str_le_total x y) as [H | H]; [congruence | exact H]. }
      eapply Permutation_Forall; [apply insert_sorted_perm |].
      constructor; assumption.
Qed.

Lemma sorted_ordered l : StronglySorted (fun a b => str_le a b = true) (sorted l).
Proof.
  induction l as [| x rest IH]; simpl.
  - constructor.
  - apply insert_sorted_ordered. exact IH.
Qed.

Lemma arc_lines_app start a b :
  arc_lines start (a ++ b)
  = (arc_lines start a ++ arc_lines (start + Z.of_nat (length a)) b)%list.
Proof.
  revert start. induction a as [| [[name value] p] rest IH]; intros start; simpl.
  - f_equal. lia.
  - f_equal. rewrite IH. do 2 f_equal. lia.
Qed.

Lemma fold_arc_step name value ps st :
  fold_left (arc_step name value) ps st
  = (fst st + Z.of_nat (length ps),
     (snd st ++ arc_lines (fst st) (map (fun p => (name, value, p)) ps))%list).
Proof.
  revert st. induction ps as [| p rest IH]; intros [index lines].
  - simpl. rewrite app_nil_r. f_equal. lia.
  - cbn [fold_left]. rewrite IH. unfold arc_step. cbn [fst snd map arc_lines length].
    rewrite <- app_assoc. f_equal. lia.
Qed.

Lemma name_step_spec primes st name :
  name_step primes st name
  = (fst st + Z.of_nat (length (arcs_of_name primes name)),
     (snd st ++ arc_lines (fst st) (arcs_of_name primes name))%list).
Proof.
  unfold name_step, arcs_of_name, entry_of. destruct st as [index lines].
  destruct (Dict.get primes name) as [e |].
  - cbn [fold_left flat_map]. unfold value_step.
    rewrite !fold_arc_step. cbn [fst snd]. rewrite app_nil_r.
    rewrite arc_lines_app, length_app, !length_map, <- app_assoc.
    f_equal. lia.
  - simpl. rewrite app_nil_r. f_equal. lia.
Qed.

Lemma hyperarcs_spec primes st :
  hyperarcs primes st
  = (fst st + Z.of_nat (length (arc_list primes)),
     (snd st ++ arc_lines (fst st) (arc_list primes))%list).
Proof.
  unfold hyperarcs, arc_list. revert st.
  induction (sorted (Dict.keys primes)) as [| name rest IH]; intros [index lines].
  - simpl. rewrite app_nil_r. f_equal. lia.
  - cbn [fold_left flat_map]. rewrite IH, name_step_spec. cbn [fst snd].
    rewrite arc_lines_app, length_app, <- app_assoc. f_equal. lia.
Qed.

(** C6, as stated, fails: the first line of the text carries the date, so
    the same call on two days gives two texts. *)
Lemma encoder_text_depends_on_date :
  exists t1 t2,
    snd (primes2asp Sample.primes (Some "net.asp") None None (Some "min") None
                    Sample.world) = Return t1
    /\ snd (primes2asp Sample.primes (Some "net.asp") None None (Some "min") None
                       Sample.next_day) = Return t2
    /\ t1 <> t2.
Proof.
  eexists. eexists. split; [vm_compute; reflexivity |].
  split; [vm_compute; reflexivity |].
  apply String.eqb_neq. vm_compute. reflexivity.
Qed.

Lemma primes2asp_outcome primes fname bounds project type_ extra w :
  snd (primes2asp primes fname bounds project type_ extra w)
  = if opt_str_in type_ known_types then
      match asp_lines (today w) primes bounds project type_ extra with
      | Raise e => Raise e
      | Return lines =>
          match fname with
          | Some _ => Return (Py.join newline lines)
          | None => Raise TypeError
          end
      end
    else Raise AssertionError.
Proof.
  unfold primes2asp, assert.
  destruct (opt_str_in type_ known_types); [| reflexivity].
  unfold bind, ret, get_today, lift.
  destruct (asp_lines (today w) primes bounds project type_ extra); [| reflexivity].
  destruct fname; reflexivity.
Qed.

(** C6 (amended): two invocations with the same arguments on the same date
    have the same outcome, whatever else differs in the world.  The date
    shows in the first line only: for two dates the lines are the same but
    for that line.  The hyper-arc lines are those of [arc_list] (names in
    ascending order, a sorted permutation of the keys; value 0 before value
    1) with identifiers 1, 2, 3, ... in that order. *)
Theorem encoding_reproducible_up_to_date :
  forall w1 w2 primes fname bounds project type_ extra,
    today w1 = today w2 ->
    snd (primes2asp primes fname bounds project type_ extra w1)
    = snd (primes2asp primes fname bounds project type_ extra w2)
    /\ (forall d d',
           asp_lines d' primes bounds project type_ extra
           = match asp_lines d primes bounds project type_ extra with
             | Return lines => Return (created_line d' :: tl lines)
             | Raise e => Raise e
             end)
    /\ (forall d,
           rules d primes type_
           = (header d ++ arc_lines 0 (arc_list primes) ++ [""] ++ core_rules
              ++ closure_rules type_ ++ circuits_rules type_ ++ hit_rule)%list)
    /\ StronglySorted (fun a b => str_le a b = true) (sorted (Dict.keys primes))
    /\ Permutation (Dict.keys primes) (sorted (Dict.keys primes)).
Proof.
  intros w1 w2 primes fname bounds project type_ extra Hday.
  assert (Hrules : forall x,
             rules x primes type_
             = (header x ++ arc_lines 0 (arc_list primes) ++ [""] ++ core_rules
                ++ closure_rules type_ ++ circuits_rules type_ ++ hit_rule)%list).
  { intros x. unfold rules. rewrite hyperarcs_spec. cbn [fst snd].
    rewrite <- app_assoc. reflexivity. }
  split; [rewrite !primes2asp_outcome, Hday; reflexivity |].
  split; [| split; [apply Hrules | split; [apply sorted_ordered | apply sorted_perm]]].
  intros d d'. rewrite !asp_lines_eq.
  destruct (cardinality bounds) as [card | e]; [| reflexivity].
  rewrite !Hrules. reflexivity.
Qed.

Lemma encoding_reproducible_up_to_date_witness :
  today Sample.world = today (logged (written Sample.world "old.asp" "") [])
  /\ snd (primes2asp Sample.primes (Some "net.asp") (Some (BInt 1, BInt 3)) None
                     (Some "max") None Sample.world)
     = snd (primes2asp Sample.primes (Some "net.asp") (Some (BInt 1, BInt 3)) None
                       (Some "max") None
                       (logged (written Sample.world "old.asp" "") [])).
Proof.
  split; [reflexivity |].
  exact (proj1 (encoding_reproducible_up_to_date Sample.world
                  (logged (written Sample.world "old.asp" "") []) Sample.primes
                  (Some "net.asp") (Some (BInt 1, BInt 3)) None (Some "max") None
                  eq_refl)).
Defined.

(** ** C7: the output cap *)

Lemma split_on_nonempty c s : Py.split_on c s <> [].
Proof.
  destruct s as [| a rest]; simpl; [discriminate |].
  destruct (Ascii.eqb a c); [discriminate |].
  destruct (Py.split_on c rest); discriminate.
Qed.

(** Splitting a text that continues after a separator. *)
Lemma split_on_app c a b :
  Py.split_on c (a ++ String c b) = (Py.split_on c a ++ Py.split_on c b)%list.
Proof.
  induction a as [| x a' IH]; simpl.
  - rewrite Ascii.eqb_refl. reflexivity.
  - destruct (Ascii.eqb x c).
    + rewrite IH. reflexivity.
    + rewrite IH. pose proof (split_on_nonempty c a') as Hne.
      destruct (Py.split_on c a') as [| w ws]; [congruence | reflexivity].
Qed.

Section DecodeLoop.

Variable parse : string -> Outcome Solution.
Variable max_output : Z.

Lemma decode_loop_cons x lines acc :
  decode_loop parse max_output (x :: lines) acc
  = if Z.of_nat (length acc) <? max_output then
      if String.eqb (Py.slice None (Some 6) x) "Answer" then
        match lines with
        | [] => Raise IndexError
        | line' :: rest' =>
            match parse line' with
            | Raise e => Raise e
            | Return sol => decode_loop parse max_output rest' (acc ++ [sol])%list
            end
        end
      else decode_loop parse max_output lines acc
    else Return acc.
Proof. reflexivity. Qed.

(** The loop never lets the result grow beyond the cap. *)
Lemma decode_loop_bounded lines :
  (forall acc r,
      decode_loop parse max_output lines acc = Return r ->
      Z.of_nat (length r) <= Z.max (Z.of_nat (length acc)) max_output)
  /\ (forall x acc r,
         decode_loop parse max_output (x :: lines) acc = Return r ->
         Z.of_nat (length r) <= Z.max (Z.of_nat (length acc)) max_output).
Proof.
  induction lines as [| line rest [IH1 IH2]].
  - split.
    + simpl. intros acc r H. injection H as <-. lia.
    + intros x acc r H. simpl in H.
      destruct (Z.of_nat (length acc) <? max_output).
      * destruct (String.eqb _ _); [discriminate H | injection H as <-; lia].
      * injection H as <-. lia.
  - split; [exact (IH2 line) |].
    intros x acc r H. rewrite decode_loop_cons in H.
    destruct (Z.ltb_spec (Z.of_nat (length acc)) max_output) as [Hlt | Hge].
    + destruct (String.eqb _ _).
      * destruct (parse line) as [sol | e]; [| discriminate H].
        apply IH1 in H. rewrite length_app in H. simpl in H. lia.
      * apply (IH2 line) in H. exact H.
    + injection H as <-. lia.
Qed.


End DecodeLoop.



(** ** The query layer *)

Section QueryProperties.

Context {collab : Collaborators}.

Lemma resolve_bounds_idempotent primes bounds :
  resolve_bounds primes (resolve_bounds primes bounds) = resolve_bounds primes bounds.
Proof. destruct bounds as [[[lo |] [hi |]] |]; reflexivity. Qed.

(** The handle sees its bounds only through their resolved form. *)
Lemma potassco_handle_resolved primes type_ bounds project max_output fname
    representation extra :
  potassco_handle primes type_ bounds project max_output fname representation extra
  = potassco_handle primes type_ (resolve_bounds primes bounds) project max_output
                    fname representation extra.
Proof. unfold potassco_handle. rewrite resolve_bounds_idempotent. reflexivity. Qed.

Lemma emit_run lv a w : emit lv a w = (logged w [(lv, a)], Return tt).
Proof. reflexivity. Qed.

Lemma logged_logged w r1 r2 : logged (logged w r1) r2 = logged w (r1 ++ r2).
Proof. unfold logged. simpl. rewrite <- app_assoc. reflexivity. Qed.


(** What the containment query does with the solutions of the handle. *)
Lemma intersect_subspace_after_handle primes subspace type_ fname representation
    max_output w w1 tspaces :
  arg_len subspace <= Dict.len primes ->
  potassco_handle (active_primes primes (as_dict primes subspace)) type_
                  (if String.eqb type_ "max" then Some (BInt 1, BN) else None)
                  (Some []) max_output fname representation None w
  = (w1, Return tspaces) ->
  trapspaces_that_intersect_subspace primes subspace type_ fname representation
                                     max_output w
  = match tspaces with
    | [] => (w1, Return [empty_answer primes representation])
    | _ :: _ =>
        if (Dict.len (as_dict primes subspace) =? Dict.len primes)
           && String.eqb type_ "min"
        then if 1 <? Z.of_nat (length tspaces)
             then (logged w1 (uniqueness_errors tspaces), Raise SystemExit)
             else match rev tspaces with
                  | x :: _ => (w1, Return [x])
                  | [] => (w1, Raise IndexError)
                  end
        else (w1, Return tspaces)
    end.
Proof.
  intros Hlen Hrun. unfold trapspaces_that_intersect_subspace, assert.
  apply Z.leb_le in Hlen. rewrite Hlen.
  unfold bind at 1. unfold ret at 1.
  rewrite (bind_Return _ _ _ Hrun).
  destruct tspaces as [| t ts]; [reflexivity |].
  destruct (_ && _); [| reflexivity].
  destruct (1 <? _).
  - unfold bind, sys_exit, raise. rewrite !emit_run. rewrite !logged_logged. reflexivity.
  - unfold pop, bind, ret, raise. destruct (rev (t :: ts)); reflexivity.
Qed.

End QueryProperties.

(** ** C5: no solution *)

(** C5: when the containment query reaches the solver and the handle
    returns no solution, the query returns the one-element list that holds
    the empty subspace, as a dict or rendered by [subspace2str]. *)
Theorem empty_result_is_whole_space :
  forall (collab : Collaborators) primes subspace type_ fname representation
         max_output w w1,
    arg_len subspace <= Dict.len primes ->
    potassco_handle (active_primes primes (as_dict primes subspace)) type_
                    (if String.eqb type_ "max" then Some (BInt 1, BN) else None)
                    (Some []) max_output fname representation None w
    = (w1, Return []) ->
    trapspaces_that_intersect_subspace primes subspace type_ fname representation
                                       max_output w
    = (w1, Return [empty_answer primes representation])
    /\ empty_answer primes representation
       = (if String.eqb representation "str"
          then AsStr (subspace2str primes []) else AsDict []).
Proof.
  intros collab primes subspace type_ fname representation max_output w w1 Hlen Hrun.
  split; [| reflexivity].
  rewrite (@intersect_subspace_after_handle collab primes subspace type_ fname
             representation max_output w w1 [] Hlen Hrun).
  reflexivity.
Qed.

Lemma empty_result_is_whole_space_witness :
  arg_len (GivenDict [("Erk", 0)]) <= Dict.len Sample.primes
  /\ exists w1,
       potassco_handle (collab := Sample.quiet) Sample.primes "min" None (Some [])
                       1000 (Some "net.asp") "str" None Sample.world
       = (w1, Return [])
       /\ trapspaces_that_intersect_subspace (collab := Sample.quiet) Sample.primes
            (GivenDict [("Erk", 0)]) "min" (Some "net.asp") "str" 1000 Sample.world
          = (w1, Return [AsStr "---"]).
Proof.
  assert (Hlen : arg_len (GivenDict [("Erk", 0)]) <= Dict.len Sample.primes)
    by (vm_compute; discriminate).
  split; [exact Hlen |].
  destruct (potassco_handle (collab := Sample.quiet) Sample.primes "min" None
                            (Some []) 1000 (Some "net.asp") "str" None Sample.world)
    as [w1 out] eqn:Hrun.
  assert (Hout : out = Return []).
  { apply (f_equal snd) in Hrun. simpl in Hrun. rewrite <- Hrun.
    vm_compute. reflexivity. }
  subst out. exists w1. split; [reflexivity |].
  exact (proj1 (@empty_result_is_whole_space Sample.quiet Sample.primes
                  (GivenDict [("Erk", 0)]) "min" (Some "net.asp") "str" 1000
                  Sample.world w1 Hlen Hrun)).
Defined.



(** ** Projection lists and unknown names *)

Section Projection.

Variable primes : Primes.

Lemma unknown_names_spec project x :
  In x (unknown_names primes project)
  <-> In x project /\ Dict.mem primes x = false.
Proof.
  unfold unknown_names. rewrite nodup_In, filter_In.
  split; intros [Hin Hm]; split; try exact Hin.
  - apply negb_true_iff. exact Hm.
  - apply negb_true_iff. exact Hm.
Qed.

Lemma unknown_names_nil project :
  unknown_names primes project = [] <-> forallb (Dict.mem primes) project = true.
Proof.
  split.
  - intros Hnil. apply forallb_forall. intros x Hin.
    destruct (Dict.mem primes x) eqn:Hm; [reflexivity |].
    assert (Hx : In x (unknown_names primes project))
      by (apply unknown_names_spec; split; assumption).
    rewrite Hnil in Hx. destruct Hx.
  - intros Hall. destruct (unknown_names primes project) as [| x rest] eqn:Hu;
      [reflexivity |].
    assert (Hx : In x (unknown_names primes project)) by (rewrite Hu; left; reflexivity).
    apply unknown_names_spec in Hx. destruct Hx as [Hin Hm].
    rewrite forallb_forall in Hall. rewrite (Hall x Hin) in Hm. discriminate Hm.
Qed.

End Projection.


(** ** C3: percolation and the caller's primes *)




(** * Further properties of the module *)

(** ** Dictionaries: lookup after update *)

Section DictFacts.

Variable V : Type.

Lemma get_set_same (d : Dict.t V) k v : Dict.get (Dict.set d k v) k = Some v.
Proof.
  induction d as [| [k' v'] rest IH]; simpl.
  - rewrite String.eqb_refl. reflexivity.
  - destruct (String.eqb k k') eqn:E; simpl; rewrite E; [reflexivity | exact IH].
Qed.

Lemma get_set_other (d : Dict.t V) k v g :
  g <> k -> Dict.get (Dict.set d k v) g = Dict.get d g.
Proof.
  intros Hne. apply String.eqb_neq in Hne.
  induction d as [| [k' v'] rest IH]; simpl.
  - rewrite Hne. reflexivity.
  - destruct (String.eqb k k') eqn:E; simpl.
    + apply String.eqb_eq in E. subst k'. rewrite Hne. reflexivity.
    + destruct (String.eqb g k'); [reflexivity | exact IH].
Qed.

Lemma keys_set (d : Dict.t V) k v x :
  In x (Dict.keys (Dict.set d k v)) <-> x = k \/ In x (Dict.keys d).
Proof.
  induction d as [| [k' v'] rest IH]; simpl.
  - intuition.
  - destruct (String.eqb k k') eqn:E; simpl.
    + apply String.eqb_eq in E. subst k'. intuition.
    + rewrite IH. intuition.
Qed.

Lemma set_NoDup (d : Dict.t V) k v :
  NoDup (Dict.keys d) -> NoDup (Dict.keys (Dict.set d k v)).
Proof.
  induction d as [| [k' v'] rest IH]; simpl; intros Hnd.
  - constructor; [intros [] | constructor].
  - inversion Hnd as [| a l Hnotin Hrest]; subst.
    destruct (String.eqb k k') eqn:E; simpl.
    + constructor; assumption.
    + constructor; [| apply IH; exact Hrest].
      intros Hin. apply keys_set in Hin. destruct Hin as [Heq | Hin].
      * subst k'. rewrite String.eqb_refl in E. discriminate E.
      * exact (Hnotin Hin).
Qed.

Lemma mem_keys (d : Dict.t V) k : Dict.mem d k = true <-> In k (Dict.keys d).
Proof.
  unfold Dict.mem. induction d as [| [k' v'] rest IH]; simpl.
  - split; [discriminate | intros []].
  - destruct (String.eqb k k') eqn:E.
    + apply String.eqb_eq in E. subst k'. intuition.
    + apply String.eqb_neq in E. rewrite IH. intuition congruence.
Qed.

Lemma of_list_acc_keys (pairs : list (string * V)) (d : Dict.t V) x :
  In x (Dict.keys (fold_left (fun d kv => Dict.set d (fst kv) (snd kv)) pairs d))
  <-> In x (Dict.keys d) \/ In x (map fst pairs).
Proof.
  revert d. induction pairs as [| [k v] rest IH]; intros d; simpl.
  - intuition.
  - rewrite IH, keys_set. intuition.
Qed.

Lemma of_list_acc_NoDup (pairs : list (string * V)) (d : Dict.t V) :
  NoDup (Dict.keys d) ->
  NoDup (Dict.keys (fold_left (fun d kv => Dict.set d (fst kv) (snd kv)) pairs d)).
Proof.
  revert d. induction pairs as [| [k v] rest IH]; intros d Hnd; simpl.
  - exact Hnd.
  - apply IH. apply set_NoDup. exact Hnd.
Qed.

Lemma of_list_keys (pairs : list (string * V)) x :
  In x (Dict.keys (Dict.of_list pairs)) <-> In x (map fst pairs).
Proof. unfold Dict.of_list. rewrite of_list_acc_keys. simpl. intuition. Qed.

Lemma of_list_NoDup (pairs : list (string * V)) : NoDup (Dict.keys (Dict.of_list pairs)).
Proof. apply of_list_acc_NoDup. constructor. Qed.

End DictFacts.

(** ** What the queries leave alone *)

Lemma touches_refl fname w : touches fname w w.
Proof.
  split; [reflexivity |]. split; [exists []; symmetry; apply app_nil_r | reflexivity].
Qed.

Lemma touches_trans fname w1 w2 w3 :
  touches fname w1 w2 -> touches fname w2 w3 -> touches fname w1 w3.
Proof.
  intros [Hd1 [[r1 Hl1] Hf1]] [Hd2 [[r2 Hl2] Hf2]].
  split; [congruence |]. split.
  - exists (r1 ++ r2)%list. rewrite Hl2, Hl1, app_assoc. reflexivity.
  - intros g Hg. rewrite (Hf2 g Hg). apply Hf1. exact Hg.
Qed.

Lemma frames_ret fname A (a : A) : frames fname (ret a).
Proof. intros w w' o H. injection H as <- _. apply touches_refl. Qed.

Lemma frames_raise fname A e : frames fname (@raise A e).
Proof. intros w w' o H. injection H as <- _. apply touches_refl. Qed.

Lemma frames_lift fname A (o : Outcome A) : frames fname (lift o).
Proof. intros w w' o' H. injection H as <- _. apply touches_refl. Qed.

Lemma frames_assert fname b : frames fname (assert b).
Proof. destruct b; [apply frames_ret | apply frames_raise]. Qed.

Lemma frames_get_today fname : frames fname get_today.
Proof. intros w w' o H. injection H as <- _. apply touches_refl. Qed.

Lemma frames_get_files fname : frames fname get_files.
Proof. intros w w' o H. injection H as <- _. apply touches_refl. Qed.

Lemma frames_emit fname lv a : frames fname (emit lv a).
Proof.
  intros w w' o H. injection H as <- _.
  split; [reflexivity |]. split; [eexists; reflexivity | reflexivity].
Qed.

Lemma frames_write_file fname text : frames fname (write_file fname text).
Proof.
  destruct fname as [f |]; [| apply frames_raise].
  intros w w' o H. injection H as <- _.
  split; [reflexivity |]. split; [exists []; symmetry; apply app_nil_r |].
  intros g Hg. simpl. apply get_set_other. congruence.
Qed.

Lemma frames_bind fname A B (c : M A) (k : A -> M B) :
  frames fname c -> (forall a, frames fname (k a)) -> frames fname (bind c k).
Proof.
  intros Hc Hk w w' o H. unfold bind in H.
  destruct (c w) as [w1 [a | e]] eqn:Hcw.
  - eapply touches_trans; [eapply Hc; exact Hcw | eapply Hk; exact H].
  - injection H as <- _. eapply Hc. exact Hcw.
Qed.

Create HintDb frames.
#[local] Hint Resolve frames_ret frames_raise frames_lift frames_assert
  frames_get_today frames_get_files frames_emit frames_write_file : frames.

(** Splits a computation along its binds and branches down to the leaves. *)
Ltac frame_steps :=
  repeat first
    [ solve [auto with frames]
    | apply frames_bind
    | match goal with
      | |- forall _, _ => intro
      | |- frames _ (if ?b then _ else _) => destruct b
      | |- frames _ (match ?x with _ => _ end) => destruct x
      end ].

Lemma frames_primes2asp primes fname bounds project type_ extra :
  frames fname (primes2asp primes fname bounds project type_ extra).
Proof. unfold primes2asp. frame_steps. Qed.

Section FrameQueries.

Context {collab : Collaborators}.

Lemma frames_run_pipeline fname asp_text cmd_gringo cmd_clasp :
  frames fname (run_pipeline asp_text fname cmd_gringo cmd_clasp).
Proof. unfold run_pipeline, sys_exit. frame_steps. Qed.

Lemma frames_decoder fname type_ output max_output :
  frames fname (decoder type_ output max_output).
Proof. unfold decoder. frame_steps. Qed.

Lemma frames_potassco_handle primes type_ bounds project max_output fname
    representation extra :
  frames fname (potassco_handle primes type_ bounds project max_output fname
                                representation extra).
Proof.
  unfold potassco_handle, sys_exit.
  pose proof frames_primes2asp. pose proof frames_run_pipeline.
  pose proof frames_decoder.
  frame_steps.
Qed.

End FrameQueries.

(** X1: whatever a query does and however it ends (a result, an exception,
    an exit), the world afterwards has the same date, a log that extends the
    old one, and the same contents for every file other than [fname_asp]. *)
Theorem queries_touch_only_their_file :
  forall (collab : Collaborators) primes type_ bounds project names subspace
         max_output fname representation extra,
    frames fname (potassco_handle primes type_ bounds project max_output fname
                                  representation extra)
    /\ frames fname (trap_spaces primes type_ max_output fname representation)
    /\ frames fname (trap_spaces_bounded primes type_ bounds max_output fname)
    /\ frames fname (steady_states primes max_output fname representation)
    /\ frames fname (steady_states_projected primes names max_output fname)
    /\ frames fname (circuits primes max_output fname representation)
    /\ frames fname (trapspaces_that_intersect_subspace primes subspace type_ fname
                       representation max_output)
    /\ frames fname (trapspaces_that_contain_state primes subspace type_ fname
                       representation max_output)
    /\ frames fname (trapspaces_within_subspace primes subspace type_ fname
                       representation max_output)
    /\ frames None (smallest_trapspace primes subspace representation).
Proof.
  intros collab primes type_ bounds project names subspace max_output fname
         representation extra.
  assert (Hh : forall p t b pr m f r e,
             frames f (potassco_handle p t b pr m f r e))
    by (intros; apply frames_potassco_handle).
  assert (Hi : forall f t m,
             frames f (trapspaces_that_intersect_subspace primes subspace t f
                         representation m)).
  { intros f t m. unfold trapspaces_that_intersect_subspace, pop, sys_exit.
    frame_steps. }
  repeat match goal with |- _ /\ _ => split end.
  - apply Hh.
  - apply Hh.
  - apply Hh.
  - apply Hh.
  - unfold steady_states_projected, sys_exit. frame_steps.
  - apply Hh.
  - apply Hi.
  - apply Hi.
  - unfold trapspaces_within_subspace, trap_spaces. frame_steps.
  - apply Hi.
Qed.

Lemma queries_touch_only_their_file_witness :
  touches (Some "net.asp")
          (written Sample.world "notes.txt" "keep")
          (fst (trapspaces_that_contain_state (collab := Sample.talkative)
                  Sample.primes (GivenDict [("Raf", 1); ("Mek", 0); ("Erk", 0)])
                  "min" (Some "net.asp") "dict" 1000
                  (written Sample.world "notes.txt" "keep"))).
Proof.
  destruct (queries_touch_only_their_file Sample.talkative Sample.primes "min" None
              None [] (GivenDict [("Raf", 1); ("Mek", 0); ("Erk", 0)]) 1000
              (Some "net.asp") "dict" None)
    as [_ [_ [_ [_ [_ [_ [_ [H _]]]]]]]].
  eapply H. apply surjective_pairing.
Defined.

(** ** What a returned result looks like *)

Lemma bind_inv {A B} (c : M A) (k : A -> M B) w w' b :
  bind c k w = (w', Return b) ->
  exists w1 a, c w = (w1, Return a) /\ k a w1 = (w', Return b).
Proof.
  unfold bind. destruct (c w) as [w1 [a | e]]; intros H.
  - exists w1, a. split; [reflexivity | exact H].
  - discriminate H.
Qed.

Section DecodeShape.

Variable parse : string -> Outcome Solution.
Variable max_output : Z.

(** Case analysis along the loop: one case per way through its body. *)
Lemma decode_loop_cases (P : list string -> list Solution -> Outcome (list Solution) -> Prop) :
  (forall acc, P [] acc (Return acc)) ->
  (forall x lines acc,
      max_output <= Z.of_nat (length acc) -> P (x :: lines) acc (Return acc)) ->
  (forall x acc,
      Z.of_nat (length acc) < max_output -> is_answer x = true ->
      P [x] acc (Raise IndexError)) ->
  (forall x l rest acc e,
      Z.of_nat (length acc) < max_output -> is_answer x = true ->
      parse l = Raise e -> P (x :: l :: rest) acc (Raise e)) ->
  (forall x l rest acc sol,
      Z.of_nat (length acc) < max_output -> is_answer x = true ->
      parse l = Return sol ->
      P rest (acc ++ [sol])%list (decode_loop parse max_output rest (acc ++ [sol])%list) ->
      P (x :: l :: rest) acc (decode_loop parse max_output rest (acc ++ [sol])%list)) ->
  (forall x lines acc,
      Z.of_nat (length acc) < max_output -> is_answer x = false ->
      P lines acc (decode_loop parse max_output lines acc) ->
      P (x :: lines) acc (decode_loop parse max_output lines acc)) ->
  forall lines acc, P lines acc (decode_loop parse max_output lines acc).
Proof.
  intros Hnil Hcap Hlast Hbad Hgood Hskip.
  assert (Hboth : forall lines,
             (forall acc, P lines acc (decode_loop parse max_output lines acc))
             /\ (forall x acc,
                    P (x :: lines) acc (decode_loop parse max_output (x :: lines) acc))).
  { induction lines as [| line rest [IH1 IH2]].
    - split; [intros acc; apply Hnil |].
      intros x acc. rewrite decode_loop_cons.
      destruct (Z.ltb_spec (Z.of_nat (length acc)) max_output) as [Hlt | Hge];
        [| apply Hcap; exact Hge].
      destruct (String.eqb _ _) eqn:Ha.
      + apply Hlast; assumption.
      + apply Hskip; [assumption | exact Ha | apply Hnil].
    - split; [exact (IH2 line) |].
      intros x acc. rewrite decode_loop_cons.
      destruct (Z.ltb_spec (Z.of_nat (length acc)) max_output) as [Hlt | Hge];
        [| apply Hcap; exact Hge].
      destruct (String.eqb _ _) eqn:Ha.
      + destruct (parse line) as [sol | e] eqn:Hp.
        * apply Hgood; try assumption. apply IH1.
        * apply Hbad; assumption.
      + apply Hskip; [assumption | exact Ha | apply IH2]. }
  intros lines. apply Hboth.
Qed.

(** What holds of every parsed line and of the start holds of the result. *)
Lemma decode_loop_Forall (Q : Solution -> Prop) :
  (forall l s, parse l = Return s -> Q s) ->
  forall lines acc r,
    Forall Q acc ->
    decode_loop parse max_output lines acc = Return r -> Forall Q r.
Proof.
  intros Hparse lines acc.
  apply (decode_loop_cases
           (fun _ acc o => forall r, Forall Q acc -> o = Return r -> Forall Q r)).
  - intros a r Ha H. injection H as <-. exact Ha.
  - intros x ls a _ r Ha H. injection H as <-. exact Ha.
  - intros x a _ _ r _ H. discriminate H.
  - intros x l rest a e _ _ _ r _ H. discriminate H.
  - intros x l rest a sol _ _ Hp IH r Ha H. apply IH; [| exact H].
    apply Forall_app. split; [exact Ha |]. constructor; [| constructor].
    eapply Hparse. exact Hp.
  - intros x ls a _ _ IH r Ha H. apply IH; assumption.
Qed.

End DecodeShape.

Section HandleResults.

Context {collab : Collaborators}.

(** A handle that returns had a known variant and representation and a file
    name, and its result is the rendered result of the decoder. *)
Lemma potassco_handle_inv primes type_ bounds project max_output fname
    representation extra w w' r :
  potassco_handle primes type_ bounds project max_output fname representation extra w
  = (w', Return r) ->
  str_in type_ ["max"; "min"; "all"; "percolated"; "circuits"] = true
  /\ str_in representation ["str"; "dict"] = true
  /\ (exists f, fname = Some f)
  /\ exists output res,
       decode type_ output max_output = Return res
       /\ r = map (render primes representation) res.
Proof.
  unfold potassco_handle. intros H.
  apply bind_inv in H. destruct H as [w1 [[] [H1 H]]].
  destruct (str_in type_ _); [| discriminate H1].
  apply bind_inv in H. destruct H as [w2 [[] [H2 H]]].
  destruct (str_in representation _); [| discriminate H2].
  apply bind_inv in H. destruct H as [w3 [asp_text [H3 H]]].
  assert (Hf : exists f, fname = Some f).
  { destruct fname as [f |]; [exists f; reflexivity |].
    pose proof (primes2asp_outcome primes None (resolve_bounds primes bounds) project
                  (Some type_) extra w2) as Ho.
    rewrite H3 in Ho. cbn [snd] in Ho.
    destruct (opt_str_in (Some type_) known_types); [| discriminate Ho].
    destruct (asp_lines (today w2) primes (resolve_bounds primes bounds) project
                        (Some type_) extra); discriminate Ho. }
  apply bind_inv in H. destruct H as [w4 [streams [H4 H]]].
  apply bind_inv in H. destruct H as [w5 [[] [H5 H]]].
  do 5 (apply bind_inv in H; destruct H as [? [[] [_ H]]]).
  apply bind_inv in H. destruct H as [w6 [res [H6 H]]].
  injection H as _ Hr.
  unfold decoder in H6. apply bind_inv in H6. destruct H6 as [w7 [res' [Hdec H6]]].
  apply bind_inv in H6. destruct H6 as [w8 [[] [_ H6]]].
  injection H6 as _ Hres. subst res'.
  unfold lift in Hdec. injection Hdec as _ Hdec.
  repeat split; try assumption.
  exists (fst streams), res. split; [exact Hdec | symmetry; exact Hr].
Qed.

End HandleResults.

Lemma parser_of_shape type_ l s :
  parser_of type_ l = Return s ->
  if String.eqb type_ "circuits"
  then exists c p, s = CircuitDict c p
  else exists d, s = AsDict d.
Proof.
  unfold parser_of. destruct (String.eqb type_ "circuits").
  - unfold parse_circuit.
    destruct (mapM parse_hit _) as [t | e]; intros H; [| discriminate H].
    injection H as <-. eexists. eexists. reflexivity.
  - unfold parse_subspace.
    destruct (mapM parse_hit _) as [t | e]; intros H; [| discriminate H].
    injection H as <-. eexists. reflexivity.
Qed.

Section HandleCap.

Context {collab : Collaborators}.

Lemma handle_cap primes type_ bounds project max_output fname representation extra
    w w' r :
  potassco_handle primes type_ bounds project max_output fname representation extra w
  = (w', Return r) ->
  Z.of_nat (length r) <= Z.max 0 max_output.
Proof.
  intros H. apply potassco_handle_inv in H.
  destruct H as [_ [_ [_ [output [res [Hdec Hr]]]]]].
  subst r. rewrite length_map. unfold decode in Hdec.
  apply (proj1 (decode_loop_bounded _ _ _)) in Hdec. exact Hdec.
Qed.

End HandleCap.

(** X2: a result of [potassco_handle] has at most [max_output] solutions
    (none for a cap below 1), and each has the form of the variant and the
    representation asked for: pairs for circuits and single subspaces
    otherwise, strings for "str" and dicts for "dict". *)
Theorem handle_result_capped_and_shaped :
  forall (collab : Collaborators) primes type_ bounds project max_output fname
         representation extra w w' r,
    potassco_handle primes type_ bounds project max_output fname representation
                    extra w = (w', Return r) ->
    Z.of_nat (length r) <= Z.max 0 max_output
    /\ Forall (fun s => well_shaped type_ representation s = true) r.
Proof.
  intros collab primes type_ bounds project max_output fname representation extra
         w w' r H.
  split; [eapply handle_cap; exact H |].
  apply potassco_handle_inv in H.
  destruct H as [_ [_ [_ [output [res [Hdec Hr]]]]]]. subst r.
  unfold decode in Hdec.
  apply (@decode_loop_Forall (parser_of type_) max_output
           (fun s => if String.eqb type_ "circuits"
                     then exists c p, s = CircuitDict c p
                     else exists d, s = AsDict d)
           (@parser_of_shape type_) _ [] res (Forall_nil _)) in Hdec.
  apply Forall_map. eapply Forall_impl; [| exact Hdec].
  intros s Hs. unfold render, well_shaped.
  destruct (String.eqb type_ "circuits").
  - destruct Hs as [c [p ->]]. destruct (String.eqb representation "str") eqn:E;
      simpl; rewrite ?E; reflexivity.
  - destruct Hs as [d ->]. destruct (String.eqb representation "str") eqn:E;
      simpl; rewrite ?E; reflexivity.
Qed.

Lemma handle_result_capped_and_shaped_witness :
  exists w',
    circuits (collab := Sample.talkative) Sample.primes 1 (Some "net.asp") "str"
             Sample.world
    = (w', Return [CircuitStr "001" "---"])
    /\ Z.of_nat (length [CircuitStr "001" "---"]) <= Z.max 0 1
    /\ Forall (fun s => well_shaped "circuits" "str" s = true) [CircuitStr "001" "---"].
Proof.
  destruct (circuits (collab := Sample.talkative) Sample.primes 1 (Some "net.asp")
                     "str" Sample.world) as [w' out] eqn:Hrun.
  assert (Hout : out = Return [CircuitStr "001" "---"]).
  { apply (f_equal snd) in Hrun. simpl in Hrun. rewrite <- Hrun.
    vm_compute. reflexivity. }
  subst out. exists w'. split; [reflexivity |].
  exact (@handle_result_capped_and_shaped Sample.talkative Sample.primes "circuits"
           (Some (BInt 0, BN)) None 1 (Some "net.asp") "str" None Sample.world w' _
           Hrun).
Defined.

(** X3: the containment query never returns an empty list, whatever the
    variant, and never more than [max_output] solutions, or one when the cap
    is below 1. *)
Theorem containment_result_nonempty :
  forall (collab : Collaborators) primes subspace type_ fname representation
         max_output w w' r,
    trapspaces_that_intersect_subspace primes subspace type_ fname representation
                                       max_output w = (w', Return r) ->
    r <> [] /\ Z.of_nat (length r) <= Z.max 1 max_output.
Proof.
  intros collab primes subspace type_ fname representation max_output w w' r H.
  unfold trapspaces_that_intersect_subspace in H.
  apply bind_inv in H. destruct H as [w1 [[] [_ H]]].
  apply bind_inv in H. destruct H as [w2 [tspaces [Hrun H]]].
  apply handle_cap in Hrun.
  destruct tspaces as [| t ts].
  - injection H as _ <-. split; [discriminate | simpl; lia].
  - destruct (_ && _).
    + destruct (1 <? _).
      * do 3 (apply bind_inv in H; destruct H as [? [[] [_ H]]]). discriminate H.
      * apply bind_inv in H. destruct H as [w3 [x [_ H]]].
        injection H as _ <-. split; [discriminate | simpl; lia].
    + injection H as _ <-. split; [discriminate | lia].
Qed.

Lemma containment_result_nonempty_witness :
  exists w',
    trapspaces_that_intersect_subspace (collab := Sample.quiet) Sample.primes
      (GivenDict [("Erk", 0)]) "all" (Some "net.asp") "dict" 0 Sample.world
    = (w', Return [AsDict []])
    /\ [AsDict []] <> [] /\ Z.of_nat (length [AsDict []]) <= Z.max 1 0.
Proof.
  destruct (trapspaces_that_intersect_subspace (collab := Sample.quiet) Sample.primes
              (GivenDict [("Erk", 0)]) "all" (Some "net.asp") "dict" 0 Sample.world)
    as [w' out] eqn:Hrun.
  assert (Hout : out = Return [AsDict []]).
  { apply (f_equal snd) in Hrun. simpl in Hrun. rewrite <- Hrun.
    vm_compute. reflexivity. }
  subst out. exists w'. split; [reflexivity |].
  exact (@containment_result_nonempty Sample.quiet _ _ _ _ _ _ _ _ _ Hrun).
Defined.

(** ** The encoder: projection, bounds and the file *)

Lemma filter_idempotent {A} (f : A -> bool) (l : list A) :
  filter f (filter f l) = filter f l.
Proof.
  induction l as [| x rest IH]; simpl; [reflexivity |].
  destruct (f x) eqn:E; simpl; rewrite ?E, IH; reflexivity.
Qed.

Lemma restrict_project_filter primes names :
  restrict_project primes (Some (filter (Dict.mem primes) names))
  = restrict_project primes (Some names).
Proof.
  unfold restrict_project.
  destruct names as [| x rest]; [reflexivity |].
  destruct (filter (Dict.mem primes) (x :: rest)) as [| y known] eqn:E; [reflexivity |].
  rewrite <- E, filter_idempotent. reflexivity.
Qed.

(** X4: names of [project] that are no variables of [primes] are ignored:
    the lines are those for the known names alone.  When no name is known
    the lines are those of a call without projection; otherwise the
    directives are [#show.] followed by one [#show hit(...)] per known name,
    in the order given. *)
Theorem unknown_projection_names_ignored :
  forall d primes bounds names type_ extra,
    asp_lines d primes bounds (Some names) type_ extra
    = asp_lines d primes bounds (Some (filter (Dict.mem primes) names)) type_ extra
    /\ match filter (Dict.mem primes) names with
       | [] => asp_lines d primes bounds (Some names) type_ extra
               = asp_lines d primes bounds None type_ extra
       | known =>
           show (restrict_project primes (Some names)) type_
           = ([""; show_comment known; "#show."] ++ map show_hit known)%list
       end.
Proof.
  intros d primes bounds names type_ extra. split.
  - rewrite !asp_lines_eq. unfold trailer. rewrite restrict_project_filter. reflexivity.
  - destruct (filter (Dict.mem primes) names) as [| y known] eqn:E.
    + rewrite !asp_lines_eq. unfold trailer, restrict_project.
      destruct names as [| x rest]; [reflexivity |]. rewrite E. reflexivity.
    + unfold restrict_project.
      destruct names as [| x rest]; [discriminate E |]. rewrite E. reflexivity.
Qed.

Lemma cardinality_resolved primes bounds :
  exists card, cardinality (resolve_bounds primes bounds) = Return card.
Proof.
  destruct bounds as [[[lo |] [hi |]] |]; simpl; eexists; reflexivity.
Qed.

Lemma known_type type_ :
  str_in type_ ["max"; "min"; "all"; "percolated"; "circuits"] = true ->
  opt_str_in (Some type_) known_types = true.
Proof.
  unfold str_in, opt_str_in, known_types. simpl.
  intros H. exact H.
Qed.

(** X5: called directly with the shortcut "n" in its bounds the encoder
    raises [TypeError] and writes nothing; only [potassco_handle] replaces
    "n" by the number of variables, and after that the block for the bounds
    is always built. *)
Theorem encoder_rejects_symbolic_bounds :
  forall primes fname lo hi project type_ extra w,
    opt_str_in type_ known_types = true ->
    symbolic lo || symbolic hi = true ->
    primes2asp primes fname (Some (lo, hi)) project type_ extra w = (w, Raise TypeError)
    /\ exists card, cardinality (resolve_bounds primes (Some (lo, hi))) = Return card.
Proof.
  intros primes fname lo hi project type_ extra w Ht Hs.
  split; [| apply cardinality_resolved].
  unfold primes2asp, assert. rewrite Ht.
  unfold bind, ret, get_today, lift. rewrite asp_lines_eq.
  destruct lo as [l |], hi as [h |]; try discriminate Hs; reflexivity.
Qed.

Lemma encoder_rejects_symbolic_bounds_witness :
  opt_str_in (Some "all") known_types = true
  /\ symbolic BN || symbolic BN = true
  /\ primes2asp Sample.primes (Some "net.asp") (Some (BN, BN)) None (Some "all") None
                Sample.world = (Sample.world, Raise TypeError).
Proof.
  split; [reflexivity |]. split; [reflexivity |].
  exact (proj1 (encoder_rejects_symbolic_bounds Sample.primes (Some "net.asp") BN BN
                  None (Some "all") None Sample.world eq_refl eq_refl)).
Defined.

(** X6: when the encoder returns, a file was named and now holds exactly
    the returned text; one record, "created" with the file name, was added
    to the log, and every other file is as before. *)
Theorem encoder_file_holds_returned_text :
  forall primes fname bounds project type_ extra w w' text,
    primes2asp primes fname bounds project type_ extra w = (w', Return text) ->
    exists f,
      fname = Some f
      /\ Dict.get (files w') f = Some text
      /\ log w' = (log w ++ [(INFO, Text ("created " ++ f))])%list
      /\ today w' = today w
      /\ forall g, g <> f -> Dict.get (files w') g = Dict.get (files w) g.
Proof.
  unfold primes2asp, assert. intros primes fname bounds project type_ extra w w' text H.
  destruct (opt_str_in type_ known_types); [| discriminate H].
  unfold bind, ret, get_today, lift in H.
  destruct (asp_lines (today w) primes bounds project type_ extra) as [lines | e];
    [| discriminate H].
  destruct fname as [f |]; [| discriminate H].
  simpl in H. injection H as Hw Ht. subst w' text.
  exists f. split; [reflexivity |]. simpl.
  split; [apply get_set_same |]. split; [reflexivity |]. split; [reflexivity |].
  intros g Hg. apply get_set_other. exact Hg.
Qed.

Lemma encoder_file_holds_returned_text_witness :
  exists w' text,
    primes2asp Sample.primes (Some "net.asp") None (Some ["Raf"]) (Some "percolated")
               None (written Sample.world "net.asp" "old contents")
    = (w', Return text)
    /\ Dict.get (files w') "net.asp" = Some text.
Proof.
  destruct (primes2asp Sample.primes (Some "net.asp") None (Some ["Raf"])
                       (Some "percolated") None
                       (written Sample.world "net.asp" "old contents"))
    as [w' out] eqn:Hrun.
  assert (Hout : exists text, out = Return text).
  { apply (f_equal snd) in Hrun. simpl in Hrun. rewrite <- Hrun.
    eexists. vm_compute. reflexivity. }
  destruct Hout as [text ->]. exists w', text. split; [reflexivity |].
  destruct (encoder_file_holds_returned_text _ _ _ _ _ _ _ Hrun) as [f [Hf [Hget _]]].
  injection Hf as <-. exact Hget.
Defined.

(** ** How the queries compose *)

Section Composition.

Context {collab : Collaborators}.

(** For the handle an empty projection list is no projection. *)
Lemma handle_empty_projection primes type_ bounds max_output fname representation
    extra w :
  potassco_handle primes type_ bounds (Some []) max_output fname representation extra w
  = potassco_handle primes type_ bounds None max_output fname representation extra w.
Proof. reflexivity. Qed.

End Composition.

(** X7: steady states are the trap spaces of the variant all with both
    bounds at the number of variables: [steady_states] in the dict
    representation, [steady_states_projected] on an empty list and
    [trap_spaces_bounded] with ("n", "n") or with (n, n) are one and the
    same computation, with the same text, commands, log and result. *)
Theorem steady_states_are_fully_bounded_trap_spaces :
  forall (collab : Collaborators) primes max_output fname w,
    let n := Dict.len primes in
    steady_states primes max_output fname "dict" w
    = trap_spaces_bounded primes "all" (Some (BN, BN)) max_output fname w
    /\ steady_states primes max_output fname "dict" w
       = trap_spaces_bounded primes "all" (Some (BInt n, BInt n)) max_output fname w
    /\ steady_states_projected primes [] max_output fname w
       = steady_states primes max_output fname "dict" w.
Proof.
  intros collab primes max_output fname w n.
  unfold steady_states, trap_spaces_bounded, steady_states_projected.
  rewrite handle_empty_projection.
  split; [reflexivity |]. split; [| reflexivity].
  rewrite potassco_handle_resolved. reflexivity.
Qed.


(** ** The decoder: what it skips and where it fails *)

Section DecodeLines.

Variable parse : string -> Outcome Solution.
Variable max_output : Z.

Lemma decode_loop_full lines acc :
  max_output <= Z.of_nat (length acc) ->
  decode_loop parse max_output lines acc = Return acc.
Proof.
  intros Hge. destruct lines as [| x rest]; [reflexivity |].
  rewrite decode_loop_cons.
  destruct (Z.ltb_spec (Z.of_nat (length acc)) max_output); [lia | reflexivity].
Qed.

(** Lines that open no answer block and follow none are passed over. *)
Lemma decode_loop_skips noise lines acc :
  Forall (fun l => is_answer l = false) noise ->
  decode_loop parse max_output (noise ++ lines) acc
  = decode_loop parse max_output lines acc.
Proof.
  induction 1 as [| x rest Hx _ IH]; [reflexivity |].
  cbn [app]. rewrite decode_loop_cons.
  destruct (Z.ltb_spec (Z.of_nat (length acc)) max_output) as [Hlt | Hge].
  - unfold is_answer in Hx. rewrite Hx. exact IH.
  - symmetry. apply decode_loop_full. exact Hge.
Qed.

(** An answer marker with nothing after it is an error, unless the cap was
    reached before. *)
Lemma decode_loop_dangling a lines acc :
  is_answer a = true ->
  forall r,
    decode_loop parse max_output lines acc = Return r ->
    Z.of_nat (length r) < max_output ->
    decode_loop parse max_output (lines ++ [a]) acc = Raise IndexError.
Proof.
  intros Ha.
  apply (@decode_loop_cases parse max_output
           (fun lines acc o =>
              forall r, o = Return r -> Z.of_nat (length r) < max_output ->
                        decode_loop parse max_output (lines ++ [a]) acc
                        = Raise IndexError)).
  - intros acc0 r H Hlt. injection H as <-. cbn [app]. rewrite decode_loop_cons.
    apply Z.ltb_lt in Hlt. rewrite Hlt. unfold is_answer in Ha. rewrite Ha. reflexivity.
  - intros x ls acc0 Hge r H Hlt. injection H as <-. lia.
  - intros x acc0 _ _ r H. discriminate H.
  - intros x l rest acc0 e _ _ _ r H. discriminate H.
  - intros x l rest acc0 sol Hlt Hx Hp IH r H Hr. cbn [app].
    rewrite decode_loop_cons. apply Z.ltb_lt in Hlt. rewrite Hlt.
    unfold is_answer in Hx. rewrite Hx, Hp. eapply IH; eassumption.
  - intros x ls acc0 Hlt Hx IH r H Hr. cbn [app].
    rewrite decode_loop_cons. apply Z.ltb_lt in Hlt. rewrite Hlt.
    unfold is_answer in Hx. rewrite Hx. eapply IH; eassumption.
Qed.

End DecodeLines.

(** X9: what the solver prints before the first answer does not matter:
    lines that do not start with "Answer" are passed over, so a text and the
    same text behind such lines decode alike. *)
Theorem decoder_skips_leading_lines :
  forall type_ preamble output max_output,
    Forall (fun l => is_answer l = false) (Py.split_on "010"%char preamble) ->
    decode type_ (preamble ++ newline ++ output) max_output
    = decode type_ output max_output.
Proof.
  intros type_ preamble output max_output Hpre. unfold decode.
  change (newline ++ output) with (String "010"%char output).
  rewrite split_on_app. apply decode_loop_skips. exact Hpre.
Qed.

Lemma decoder_skips_leading_lines_witness :
  Forall (fun l => is_answer l = false)
         (Py.split_on "010"%char ("clasp version 3.3.4" ++ newline ++ "Reading from stdin"))
  /\ decode "all"
            (("clasp version 3.3.4" ++ newline ++ "Reading from stdin")
             ++ newline ++ Sample.two_answers) 5
     = decode "all" Sample.two_answers 5.
Proof.
  assert (Hpre : Forall (fun l => is_answer l = false)
                   (Py.split_on "010"%char
                      ("clasp version 3.3.4" ++ newline ++ "Reading from stdin")))
    by (repeat constructor).
  split; [exact Hpre |].
  exact (decoder_skips_leading_lines "all" _ Sample.two_answers 5 Hpre).
Defined.

(** X10: a text that ends on an answer marker, with no line of facts after
    it, cannot be decoded: unless the cap was reached before, the decoder
    raises [IndexError] and the solutions read so far are lost. *)
Theorem decoder_fails_on_dangling_answer :
  forall type_ output marker max_output r,
    decode type_ output max_output = Return r ->
    Z.of_nat (length r) < max_output ->
    is_answer marker = true ->
    Py.split_on "010"%char marker = [marker] ->
    decode type_ (output ++ newline ++ marker) max_output = Raise IndexError.
Proof.
  intros type_ output marker max_output r Hdec Hlt Ha Hone. unfold decode in *.
  change (newline ++ marker) with (String "010"%char marker).
  rewrite split_on_app, Hone.
  eapply decode_loop_dangling; eassumption.
Qed.

Lemma decoder_fails_on_dangling_answer_witness :
  exists r,
    decode "all" Sample.two_answers 5 = Return r
    /\ Z.of_nat (length r) < 5
    /\ is_answer "Answer: 3" = true
    /\ Py.split_on "010"%char "Answer: 3" = ["Answer: 3"]
    /\ decode "all" (Sample.two_answers ++ newline ++ "Answer: 3") 5 = Raise IndexError.
Proof.
  eexists.
  assert (Hdec : decode "all" Sample.two_answers 5
                 = Return [AsDict [("Erk", 0); ("Mek", 0); ("Raf", 1)];
                           AsDict [("Erk", 1); ("Mek", 1); ("Raf", 0)]])
    by (vm_compute; reflexivity).
  split; [exact Hdec |].
  assert (Hlt : Z.of_nat (length [AsDict [("Erk", 0); ("Mek", 0); ("Raf", 1)];
                                  AsDict [("Erk", 1); ("Mek", 1); ("Raf", 0)]]) < 5)
    by (simpl; lia).
  split; [exact Hlt |]. split; [reflexivity |]. split; [reflexivity |].
  exact (@decoder_fails_on_dangling_answer "all" Sample.two_answers "Answer: 3" 5 _
           Hdec Hlt eq_refl eq_refl).
Defined.

(** X11: for the circuits variant the two subspaces of a solution share no
    variable and no variable occurs twice in either, and together they hold
    exactly the variables of the hit facts of the line. *)
Theorem circuit_and_percolated_nodes_partition :
  forall line circ perc,
    parse_circuit line = Return (CircuitDict circ perc) ->
    NoDup (Dict.keys circ) /\ NoDup (Dict.keys perc)
    /\ (forall name, In name (Dict.keys circ) -> ~ In name (Dict.keys perc))
    /\ exists tspace,
         mapM parse_hit (filter (Py.contains "hit") (Py.split_ws line)) = Return tspace
         /\ forall name,
              In name (map fst tspace)
              <-> In name (Dict.keys circ) \/ In name (Dict.keys perc).
Proof.
  intros line circ perc H. unfold parse_circuit in H.
  destruct (mapM parse_hit _) as [tspace | e]; [| discriminate H].
  injection H as Hc Hp.
  set (names := map (Py.slice (Some 12) (Some (-2)))
                    (filter (Py.contains "perc") (Py.split_ws line))) in *.
  set (in_perc := filter (fun x : string * Z => str_in (fst x) names) tspace) in *.
  set (in_circ := filter (fun x : string * Z => negb (Dict.mem perc (fst x))) tspace).
  assert (Hc' : circ = Dict.of_list in_circ)
    by (rewrite <- Hc; unfold in_circ; rewrite <- Hp; reflexivity).
  clear Hc. subst circ.
  assert (Hk : forall name, In name (Dict.keys (Dict.of_list in_circ))
                            <-> In name (map fst in_circ))
    by (intros name; apply of_list_keys).
  assert (Hk' : forall name, In name (Dict.keys perc) <-> In name (map fst in_perc))
    by (intros name; rewrite <- Hp; apply of_list_keys).
  split; [apply of_list_NoDup |].
  split; [rewrite <- Hp; apply of_list_NoDup |].
  split.
  - intros name Hin Hin'. apply Hk in Hin.
    apply in_map_iff in Hin. destruct Hin as [[k v] [Hkv Hf]]. simpl in Hkv. subst k.
    apply filter_In in Hf. destruct Hf as [_ Hnot].
    apply negb_true_iff in Hnot. simpl in Hnot.
    apply (proj2 (mem_keys perc name)) in Hin'. congruence.
  - exists tspace. split; [reflexivity |].
    intros name. split.
    + intros Hin. destruct (Dict.mem perc name) eqn:Hm.
      * right. apply (proj1 (mem_keys perc name)). exact Hm.
      * left. apply Hk.
        apply in_map_iff in Hin. destruct Hin as [[k v] [Hkv Hf]]. simpl in Hkv. subst k.
        apply in_map_iff. exists (name, v). split; [reflexivity |].
        apply filter_In. split; [exact Hf |]. simpl. rewrite Hm. reflexivity.
    + intros [Hin | Hin].
      * apply Hk in Hin.
        apply in_map_iff in Hin. destruct Hin as [[k v] [Hkv Hf]].
        apply filter_In in Hf. destruct Hf as [Hf _].
        apply in_map_iff. exists (k, v). split; assumption.
      * apply Hk' in Hin.
        apply in_map_iff in Hin. destruct Hin as [[k v] [Hkv Hf]].
        apply filter_In in Hf. destruct Hf as [Hf _].
        apply in_map_iff. exists (k, v). split; assumption.
Qed.

Lemma circuit_and_percolated_nodes_partition_witness :
  parse_circuit ("percolated(" ++ Py.quoted "Raf" ++ ") " ++ Sample.hit "Raf" 1
                 ++ " " ++ Sample.hit "Mek" 0 ++ " " ++ Sample.hit "Erk" 0)
  = Return (CircuitDict [("Mek", 0); ("Erk", 0)] [("Raf", 1)])
  /\ NoDup (Dict.keys [("Mek", 0); ("Erk", 0)])
  /\ forall name, In name (Dict.keys [("Mek", 0); ("Erk", 0)])
                  -> ~ In name (Dict.keys [("Raf", 1)]).
Proof.
  assert (Hrun : parse_circuit ("percolated(" ++ Py.quoted "Raf" ++ ") "
                                ++ Sample.hit "Raf" 1 ++ " " ++ Sample.hit "Mek" 0
                                ++ " " ++ Sample.hit "Erk" 0)
                 = Return (CircuitDict [("Mek", 0); ("Erk", 0)] [("Raf", 1)]))
    by (vm_compute; reflexivity).
  split; [exact Hrun |].
  destruct (circuit_and_percolated_nodes_partition _ Hrun) as [Hc [_ [Hd _]]].
  split; [exact Hc | exact Hd].
Defined.

(** ** The handle and the external processes *)

Section Processes.

Context {collab : Collaborators}.




End Processes.





(** X14: [smallest_trapspace] passes no file name on, so it never returns
    a trap space: every call ends in an exception or an exit, and no file
    reads differently afterwards. *)
Theorem smallest_trapspace_never_returns :
  forall (collab : Collaborators) primes state representation w,
    exists w' e,
      smallest_trapspace primes state representation w = (w', Raise e)
      /\ forall g, Dict.get (files w') g = Dict.get (files w) g.
Proof.
  intros collab primes state representation w.
  assert (Hfr : frames None (smallest_trapspace primes state representation)).
  { unfold smallest_trapspace, trapspaces_that_contain_state,
      trapspaces_that_intersect_subspace, pop, sys_exit.
    pose proof (fun p t b pr m r x => @frames_potassco_handle collab p t b pr m None r x).
    frame_steps. }
  destruct (smallest_trapspace primes state representation w) as [w' [r | e]] eqn:H.
  - exfalso. unfold smallest_trapspace, trapspaces_that_contain_state,
      trapspaces_that_intersect_subspace in H.
    apply bind_inv in H. destruct H as [w1 [[] [_ H]]].
    apply bind_inv in H. destruct H as [w2 [tspaces [Hrun _]]].
    apply potassco_handle_inv in Hrun.
    destruct Hrun as [_ [_ [[f Hf] _]]]. discriminate Hf.
  - exists w', e. split; [reflexivity |].
    destruct (Hfr _ _ _ H) as [_ [_ Hfiles]].
    intros g. apply Hfiles. discriminate.
Qed.

(** ** The decoder reads back what the text declares *)

Lemma digits_acc d : forall acc : positive,
  Py.digits (Z.pos acc) (NilEmpty.string_of_uint d) = Some (Z.pos (Pos.of_uint_acc d acc)).
Proof.
  induction d; intros acc; cbn [NilEmpty.string_of_uint Py.digits Pos.of_uint_acc];
    [reflexivity | ..];
    match goal with
    | |- context [Py.digit_of ?c] =>
        let v := eval vm_compute in (Py.digit_of c) in
        change (Py.digit_of c) with v
    end; cbv iota; rewrite <- IHd; f_equal; lia.
Qed.

Lemma digits_uint d :
  Py.digits 0 (NilEmpty.string_of_uint d) = Some (Z.of_N (Pos.of_uint d)).
Proof.
  induction d; cbn [NilEmpty.string_of_uint Py.digits Pos.of_uint];
    [reflexivity | ..];
    match goal with
    | |- context [Py.digit_of ?c] =>
        let v := eval vm_compute in (Py.digit_of c) in
        change (Py.digit_of c) with v
    end; cbv iota; try exact IHd;
    cbn [Z.of_N]; rewrite <- digits_acc; reflexivity.
Qed.

(** [int] reads back what ['%i'] prints. *)
Lemma int_str_of_int z : Py.int (Py.str_of_int z) = Some z.
Proof.
  unfold Py.str_of_int.
  pose proof (DecimalZ.of_to z) as Hz.
  destruct z as [| p | p]; [reflexivity | |];
    cbn [Z.to_int Z.of_int NilZero.string_of_int] in *; unfold Z.of_uint in Hz;
    pose proof (DecimalPos.Unsigned.to_uint_nonnil p) as Hn;
    revert Hz Hn; generalize (Pos.to_uint p) as d; intros d Hz Hn;
    destruct d; try congruence; rewrite <- Hz.
  all: try (rewrite <- digits_uint; reflexivity).
  all: match goal with
       | |- Py.int (String "-" (NilZero.string_of_uint ?d)) = _ =>
           change (Py.int (String "-" (NilZero.string_of_uint d)))
             with (option_map Z.opp (Py.digits 0 (NilEmpty.string_of_uint d)))
       end; rewrite digits_uint; reflexivity.
Qed.

Section FreeOf.

Variable bad : ascii -> bool.

Lemma free_of_app a b : free_of bad (a ++ b) = free_of bad a && free_of bad b.
Proof.
  unfold free_of. induction a as [| c a' IH]; simpl; [reflexivity |].
  rewrite IH, andb_assoc. reflexivity.
Qed.

Hypothesis digits_good : forall c d, Py.digit_of c = Some d -> bad c = false.
Hypothesis minus_good : bad "-"%char = false.

Lemma free_of_uint d : free_of bad (NilEmpty.string_of_uint d) = true.
Proof.
  unfold free_of.
  induction d; cbn [NilEmpty.string_of_uint list_ascii_of_string forallb];
    [reflexivity | ..]; rewrite IHd;
    match goal with
    | |- negb (bad ?c) && true = true =>
        rewrite (@digits_good c (Z.of_nat (nat_of_ascii c) - 48) eq_refl); reflexivity
    end.
Qed.

Lemma free_of_str_of_int z : free_of bad (Py.str_of_int z) = true.
Proof.
  unfold Py.str_of_int. destruct z as [| p | p].
  - apply (free_of_uint (Decimal.D0 Decimal.Nil)).
  - cbn [Z.to_int NilZero.string_of_int].
    pose proof (DecimalPos.Unsigned.to_uint_nonnil p) as Hn.
    destruct (Pos.to_uint p) as [| d | d | d | d | d | d | d | d | d | d] eqn:E;
      [congruence | ..]; rewrite <- E;
      (replace (NilZero.string_of_uint (Pos.to_uint p))
         with (NilEmpty.string_of_uint (Pos.to_uint p)) by (rewrite E; reflexivity));
      apply free_of_uint.
  - cbn [Z.to_int NilZero.string_of_int].
    change (String "-" ?s) with ("-" ++ s). rewrite free_of_app.
    apply andb_true_intro. split.
    + unfold free_of. simpl. rewrite minus_good. reflexivity.
    + pose proof (DecimalPos.Unsigned.to_uint_nonnil p) as Hn.
      destruct (Pos.to_uint p) as [| d | d | d | d | d | d | d | d | d | d] eqn:E;
        [congruence | ..]; rewrite <- E;
        (replace (NilZero.string_of_uint (Pos.to_uint p))
           with (NilEmpty.string_of_uint (Pos.to_uint p)) by (rewrite E; reflexivity));
        apply free_of_uint.
Qed.

End FreeOf.

Lemma append_assoc (a b c : string) : (a ++ b) ++ c = a ++ (b ++ c).
Proof. induction a as [| x a' IH]; simpl; [reflexivity | rewrite IH; reflexivity]. Qed.

Lemma append_empty (s : string) : s ++ "" = s.
Proof. induction s as [| x s' IH]; simpl; [reflexivity | rewrite IH; reflexivity]. Qed.

Lemma length_append (a b : string) :
  String.length (a ++ b) = (String.length a + String.length b)%nat.
Proof. induction a as [| x a' IH]; simpl; [reflexivity | rewrite IH; reflexivity]. Qed.

Lemma substring_prefix s b : substring 0 (String.length s) (s ++ b) = s.
Proof.
  induction s as [| x s' IH]; simpl; [destruct b; reflexivity | rewrite IH; reflexivity].
Qed.

Lemma substring_skip a k s : substring (String.length a) k (a ++ s) = substring 0 k s.
Proof. induction a as [| x a' IH]; simpl; [reflexivity | exact IH]. Qed.

(** A slice that drops a prefix and a non-empty suffix leaves the middle. *)
Lemma slice_strip a s b :
  (0 < String.length b)%nat ->
  Py.slice (Some (Z.of_nat (String.length a))) (Some (- Z.of_nat (String.length b)))
           (a ++ s ++ b) = s.
Proof.
  intros Hb. unfold Py.slice, Py.clamp, Py.len.
  rewrite !length_append.
  destruct (Z.ltb_spec (Z.of_nat (String.length a)) 0) as [Hneg | _]; [lia |].
  destruct (Z.ltb_spec (- Z.of_nat (String.length b)) 0) as [_ | Hpos]; [| lia].
  rewrite Z.min_l by lia. rewrite Z.max_l by lia.
  rewrite Nat2Z.id.
  replace (Z.to_nat _) with (String.length s) by lia.
  rewrite substring_skip. apply substring_prefix.
Qed.

Lemma split_on_absent c s :
  free_of (fun x => Ascii.eqb x c) s = true -> Py.split_on c s = [s].
Proof.
  unfold free_of. induction s as [| x s' IH]; simpl; [reflexivity |].
  intros H. apply andb_prop in H. destruct H as [Hx Hs].
  apply negb_true_iff in Hx. rewrite Hx, (IH Hs). reflexivity.
Qed.

Lemma split_ws_aux_token t : forall cur rest,
  free_of Py.is_space t = true ->
  Py.split_ws_aux cur (t ++ rest)
  = Py.split_ws_aux (rev (list_ascii_of_string t) ++ cur) rest.
Proof.
  induction t as [| x t' IH]; intros cur rest Hp; [reflexivity |].
  unfold free_of in Hp. simpl in Hp. apply andb_prop in Hp. destruct Hp as [Hs Ht].
  apply negb_true_iff in Hs.
  cbn [append Py.split_ws_aux]. rewrite Hs. rewrite (IH _ _ Ht).
  cbn [list_ascii_of_string rev]. rewrite <- app_assoc. reflexivity.
Qed.

Lemma join_cons t tokens :
  Py.join " " (t :: tokens) = t ++ fold_right (fun tok acc => " " ++ tok ++ acc) "" tokens.
Proof.
  unfold Py.join. revert t. induction tokens as [| tok rest IH]; intros t.
  - simpl. symmetry. apply append_empty.
  - change (String.concat " " (t :: tok :: rest))
      with (t ++ " " ++ String.concat " " (tok :: rest)).
    rewrite IH. reflexivity.
Qed.

Lemma flush_token t tail :
  t <> "" ->
  (match rev (list_ascii_of_string t) with
   | [] => []
   | _ => [Py.of_chars (rev (rev (list_ascii_of_string t)))]
   end ++ tail)%list = t :: tail.
Proof.
  intros Hne. rewrite rev_involutive. unfold Py.of_chars.
  rewrite string_of_list_ascii_of_string.
  destruct (rev (list_ascii_of_string t)) as [| c cs] eqn:E; [| reflexivity].
  exfalso. apply Hne. apply (f_equal (@rev _)) in E. rewrite rev_involutive in E.
  simpl in E. rewrite <- (string_of_list_ascii_of_string t), E. reflexivity.
Qed.

Lemma split_ws_aux_tokens tokens :
  Forall (fun t => free_of Py.is_space t = true /\ t <> "") tokens ->
  forall t, t <> "" ->
    Py.split_ws_aux (rev (list_ascii_of_string t))
                    (fold_right (fun tok acc => " " ++ tok ++ acc) "" tokens)
    = t :: tokens.
Proof.
  induction 1 as [| tok rest [Hp Hne] _ IH]; intros t Ht.
  - cbn [fold_right Py.split_ws_aux].
    rewrite <- (app_nil_r (match rev _ with [] => [] | _ => _ end)).
    apply flush_token. exact Ht.
  - cbn [fold_right]. change (" " ++ tok ++ ?x) with (String " " (tok ++ x)).
    cbn [Py.split_ws_aux]. change (Py.is_space " ") with true. cbv iota.
    rewrite (split_ws_aux_token tok [] _ Hp), app_nil_r, (IH tok Hne).
    apply flush_token. exact Ht.
Qed.

(** [split()] undoes [" ".join] on fields without white space. *)
Lemma split_ws_join tokens :
  Forall (fun t => free_of Py.is_space t = true /\ t <> "") tokens ->
  Py.split_ws (Py.join " " tokens) = tokens.
Proof.
  intros H. destruct H as [| t rest [Hp Hne] Hrest]; [reflexivity |].
  unfold Py.split_ws. rewrite join_cons.
  rewrite (split_ws_aux_token t [] _ Hp), app_nil_r.
  apply split_ws_aux_tokens; assumption.
Qed.

Lemma set_fresh (V : Type) (d : Dict.t V) k v :
  ~ In k (Dict.keys d) -> Dict.set d k v = (d ++ [(k, v)])%list.
Proof.
  induction d as [| [k' v'] rest IH]; simpl; intros Hk; [reflexivity |].
  destruct (String.eqb k k') eqn:E.
  - apply String.eqb_eq in E. subst. exfalso. apply Hk. left. reflexivity.
  - rewrite IH; [reflexivity |]. intros Hin. apply Hk. right. exact Hin.
Qed.

Lemma of_list_acc_distinct (V : Type) (pairs : list (string * V)) : forall d,
  NoDup (map fst (d ++ pairs)) ->
  fold_left (fun d kv => Dict.set d (fst kv) (snd kv)) pairs d = (d ++ pairs)%list.
Proof.
  induction pairs as [| [k v] rest IH]; intros d Hnd; simpl.
  - symmetry. apply app_nil_r.
  - rewrite set_fresh.
    + rewrite IH; rewrite <- app_assoc; [reflexivity | exact Hnd].
    + rewrite map_app in Hnd. simpl in Hnd. apply NoDup_remove_2 in Hnd.
      intros Hin. apply Hnd. apply in_or_app. left. exact Hin.
Qed.

(** [dict(pairs)] keeps pairs with distinct keys as they are. *)
Lemma of_list_distinct (V : Type) (pairs : list (string * V)) :
  NoDup (map fst pairs) -> Dict.of_list pairs = pairs.
Proof.
  intros H. unfold Dict.of_list. apply (@of_list_acc_distinct V pairs [] H).
Qed.

Lemma digit_not_comma c d : Py.digit_of c = Some d -> is_comma c = false.
Proof.
  unfold Py.digit_of, is_comma. intros H.
  destruct (Ascii.eqb c ",") eqn:E; [| reflexivity].
  apply Ascii.eqb_eq in E. subst c. discriminate H.
Qed.

Lemma digit_not_space c d : Py.digit_of c = Some d -> Py.is_space c = false.
Proof.
  unfold Py.digit_of, Py.is_space. intros H.
  destruct ((48 <=? nat_of_ascii c)%nat && (nat_of_ascii c <=? 57)%nat) eqn:E;
    [| discriminate H].
  apply andb_prop in E. destruct E as [E1 E2].
  apply Nat.leb_le in E1. apply Nat.leb_le in E2.
  apply orb_false_intro; apply andb_false_intro2; apply Nat.leb_gt; lia.
Qed.

Lemma parse_hit_atom name value :
  free_of is_comma name = true ->
  parse_hit (hit_atom (name, value)) = Return (name, value).
Proof.
  intros Hname. unfold parse_hit, hit_atom. cbn [fst snd].
  set (body := Py.quoted name ++ "," ++ Py.str_of_int value).
  assert (Hatom : "hit(" ++ Py.quoted name ++ "," ++ Py.str_of_int value ++ ")"
                  = "hit(" ++ body ++ ")").
  { unfold body. rewrite !append_assoc. reflexivity. }
  rewrite Hatom.
  change (Some 4) with (Some (Z.of_nat (String.length "hit("))).
  change (Some (-1)) with (Some (- Z.of_nat (String.length ")"))).
  rewrite slice_strip by (simpl; lia).
  unfold body. change ("," ++ Py.str_of_int value) with (String "," (Py.str_of_int value)).
  rewrite split_on_app.
  rewrite (@split_on_absent "," (Py.quoted name)).
  - rewrite (@split_on_absent "," (Py.str_of_int value)).
    + cbn [app]. rewrite int_str_of_int.
      unfold Py.quoted.
      change (Some 1) with (Some (Z.of_nat (String.length Py.dq))).
      change (String.length ")") with (String.length Py.dq).
      rewrite slice_strip by (simpl; lia). reflexivity.
    + apply (free_of_str_of_int is_comma digit_not_comma eq_refl).
  - unfold Py.quoted. change (fun x => Ascii.eqb x ",") with is_comma.
    rewrite !free_of_app, Hname. reflexivity.
Qed.

Lemma digit_free_space z : free_of Py.is_space (Py.str_of_int z) = true.
Proof. apply (free_of_str_of_int Py.is_space digit_not_space eq_refl). Qed.

Lemma hit_atom_token nv :
  free_of Py.is_space (fst nv) = true ->
  free_of Py.is_space (hit_atom nv) = true /\ hit_atom nv <> "".
Proof.
  intros Hname. split; [| discriminate].
  unfold hit_atom, Py.quoted. rewrite !free_of_app, Hname, digit_free_space. reflexivity.
Qed.

Lemma mapM_parse_hit_atoms d :
  Forall (fun nv => free_of is_comma (fst nv) = true) d ->
  mapM parse_hit (map hit_atom d) = Return d.
Proof.
  induction 1 as [| [name value] rest Hname _ IH]; [reflexivity |].
  cbn [map mapM]. rewrite (@parse_hit_atom name value Hname), IH. reflexivity.
Qed.

(** X15: the decoder reads back the atoms as the text declares them: a line
    of [hit("name",value)] atoms separated by blanks, for a subspace whose
    names are distinct ASCII strings that hold neither commas nor white
    space, is decoded to that very subspace, items in the order of the
    line. *)
Theorem decoder_reads_back_subspace :
  forall d : Subspace,
    NoDup (Dict.keys d) ->
    Forall (fun nv => free_of non_ascii (fst nv) = true
                      /\ free_of is_comma (fst nv) = true
                      /\ free_of Py.is_space (fst nv) = true) d ->
    parse_subspace (Py.join " " (map hit_atom d)) = Return (AsDict d).
Proof.
  intros d Hnd Hnames. unfold parse_subspace.
  rewrite split_ws_join.
  - rewrite mapM_parse_hit_atoms.
    + rewrite of_list_distinct; [reflexivity | exact Hnd].
    + eapply Forall_impl; [| exact Hnames]. intros nv [_ [Hc _]]. exact Hc.
  - apply Forall_map. eapply Forall_impl; [| exact Hnames].
    intros nv [_ [_ Hs]]. apply hit_atom_token. exact Hs.
Qed.

Lemma decoder_reads_back_subspace_witness :
  NoDup (Dict.keys [("Raf", 1); ("Mek", -3); ("Erk", 0)])
  /\ Forall (fun nv : string * Z =>
               free_of non_ascii (fst nv) = true
               /\ free_of is_comma (fst nv) = true
               /\ free_of Py.is_space (fst nv) = true)
            [("Raf", 1); ("Mek", -3); ("Erk", 0)]
  /\ parse_subspace (Py.join " " (map hit_atom [("Raf", 1); ("Mek", -3); ("Erk", 0)]))
     = Return (AsDict [("Raf", 1); ("Mek", -3); ("Erk", 0)]).
Proof.
  assert (Hnd : NoDup (Dict.keys [("Raf", 1); ("Mek", -3); ("Erk", 0)]))
    by (repeat constructor; simpl; intuition discriminate).
  assert (Hnames : Forall (fun nv : string * Z =>
                             free_of non_ascii (fst nv) = true
                             /\ free_of is_comma (fst nv) = true
                             /\ free_of Py.is_space (fst nv) = true)
                          [("Raf", 1); ("Mek", -3); ("Erk", 0)])
    by (repeat constructor).
  split; [exact Hnd |]. split; [exact Hnames |].
  exact (decoder_reads_back_subspace Hnd Hnames).
Defined.

Lemma prefix_app n s b : String.prefix n s = true -> String.prefix n (s ++ b) = true.
Proof.
  revert s. induction n as [| x n' IH]; intros s H.
  - destruct (s ++ b); reflexivity.
  - destruct s as [| y s']; [discriminate H |]. simpl in *.
    destruct (ascii_dec x y); [apply IH; exact H | discriminate H].
Qed.

Lemma contains_ext n s b : Py.contains n s = true -> Py.contains n (s ++ b) = true.
Proof.
  induction s as [| y s' IH]; intros H.
  - destruct n as [| x n']; [destruct b; reflexivity | discriminate H].
  - cbn [append Py.contains] in *.
    destruct (String.prefix n (String y s')) eqn:E.
    + pose proof (@prefix_app n (String y s') b E) as E'. cbn [append] in E'.
      rewrite E'. reflexivity.
    + destruct (String.prefix n (String y (s' ++ b))); [reflexivity |].
      apply IH. exact H.
Qed.

Lemma contains_app n a s b :
  Py.contains n s = true -> Py.contains n (a ++ s ++ b) = true.
Proof.
  intros H. apply (@contains_ext n s b) in H.
  induction a as [| x a' IH]; [exact H |].
  cbn [append Py.contains].
  destruct (String.prefix n (String x (a' ++ s ++ b))); [reflexivity | exact IH].
Qed.

(** X16: in the circuits variant every token that contains "hit" is read as
    a hit fact.  A marker [percolated("name")] whose name contains "hit"
    (and no comma or white space) is such a token and has no second field,
    so the line cannot be decoded: [IndexError]. *)
Theorem percolated_name_with_hit_breaks_circuits :
  forall name rest,
    Py.contains "hit" name = true ->
    free_of is_comma name = true ->
    free_of Py.is_space name = true ->
    parse_circuit (("percolated(" ++ Py.quoted name ++ ")") ++ " " ++ rest)
    = Raise IndexError.
Proof.
  intros name rest Hhit Hcomma Hspace. unfold parse_circuit, Py.split_ws.
  set (tok := "percolated(" ++ Py.quoted name ++ ")").
  assert (Htok : free_of Py.is_space tok = true).
  { unfold tok, Py.quoted. rewrite !free_of_app, Hspace. reflexivity. }
  rewrite (split_ws_aux_token tok [] _ Htok), app_nil_r.
  change (" " ++ rest) with (String " " rest).
  cbn [Py.split_ws_aux]. change (Py.is_space " ") with true. cbv iota.
  rewrite (@flush_token tok (Py.split_ws_aux [] rest)) by discriminate.
  cbn [filter].
  assert (Hin : Py.contains "hit" tok = true).
  { unfold tok, Py.quoted.
    replace ("percolated(" ++ (Py.dq ++ name ++ Py.dq) ++ ")")
      with (("percolated(" ++ Py.dq) ++ name ++ (Py.dq ++ ")"))
      by (rewrite !append_assoc; reflexivity).
    apply contains_app. exact Hhit. }
  rewrite Hin. cbn [mapM].
  assert (Hparse : parse_hit tok = Raise IndexError).
  { unfold parse_hit.
    assert (Hsplit : Py.split_on "," (Py.slice (Some 4) (Some (-1)) tok)
                     = [Py.slice (Some 4) (Some (-1)) tok]).
    { apply split_on_absent.
      replace tok with ("perc" ++ ("olated(" ++ Py.quoted name) ++ ")")
        by (unfold tok; rewrite !append_assoc; reflexivity).
      change (Some 4) with (Some (Z.of_nat (String.length "perc"))).
      change (Some (-1)) with (Some (- Z.of_nat (String.length ")"))).
      rewrite slice_strip by (simpl; lia).
      change (fun x => Ascii.eqb x ",") with is_comma.
      unfold Py.quoted. rewrite !free_of_app, Hcomma. reflexivity. }
    rewrite Hsplit. reflexivity. }
  rewrite Hparse. reflexivity.
Qed.

Lemma percolated_name_with_hit_breaks_circuits_witness :
  Py.contains "hit" "white" = true
  /\ free_of is_comma "white" = true
  /\ free_of Py.is_space "white" = true
  /\ parse_circuit (("percolated(" ++ Py.quoted "white" ++ ")") ++ " "
                    ++ hit_atom ("white", 1)) = Raise IndexError.
Proof.
  split; [reflexivity |]. split; [reflexivity |]. split; [reflexivity |].
  exact (percolated_name_with_hit_breaks_circuits "white" (hit_atom ("white", 1))
           eq_refl eq_refl eq_refl).
Defined.

(** ** From the text to the result: the handle when the solver answers *)

Section HandleCompletes.

Context {collab : Collaborators}.

Lemma run_pipeline_answers asp_text f cmd_gringo cmd_clasp output error w :
  run_processes cmd_gringo cmd_clasp None (files w) = Completed output error ->
  run_pipeline asp_text (Some f) cmd_gringo cmd_clasp w = (w, Return (output, error)).
Proof.
  intros Hproc. unfold run_pipeline, bind, get_files. rewrite Hproc. reflexivity.
Qed.

(** With a file name the text goes to the file, the grounder is started on
    the file and nothing is written to its input; when the solver ends
    without "ERROR" in its diagnostics, the result is what the decoder makes
    of its output, rendered. *)
Lemma handle_completes primes type_ bounds project max_output f representation extra
    w lines output error res :
  str_in type_ ["max"; "min"; "all"; "percolated"; "circuits"] = true ->
  str_in representation ["str"; "dict"] = true ->
  asp_lines (today w) primes (resolve_bounds primes bounds) project (Some type_) extra
  = Return lines ->
  run_processes [CMD_GRINGO; f] (clasp_command max_output type_) None
                (Dict.set (files w) f (Py.join newline lines))
  = Completed output error ->
  Py.contains "ERROR" error = false ->
  decode type_ output max_output = Return res ->
  potassco_handle primes type_ bounds project max_output (Some f) representation extra w
  = (logged (written w f (Py.join newline lines))
       (debug_records (Py.join newline lines) [CMD_GRINGO; f]
                      (clasp_command max_output type_) error output
        ++ (if Z.of_nat (length res) =? max_output
            then more_notice max_output else []))%list,
     Return (map (render primes representation) res)).
Proof.
  intros Ht Hr Hlines Hproc Herr Hdec.
  unfold potassco_handle. rewrite Ht, Hr.
  unfold bind at 1. unfold ret at 1. unfold bind at 1. unfold ret at 1.
  erewrite bind_Return
    by (apply primes2asp_to_file; [apply known_type; exact Ht | exact Hlines]).
  erewrite bind_Return by (apply run_pipeline_answers; exact Hproc).
  cbn [fst snd]. rewrite Herr.
  unfold decoder, bind, emit, ret, lift, logged, debug_records, more_notice,
    clasp_command. rewrite Hdec. cbn [today files log written].
  destruct (Z.of_nat (length res) =? max_output);
    cbn [today files log]; rewrite <- !app_assoc; reflexivity.
Qed.

End HandleCompletes.

(** ** C4: the smallest trap space of a state *)




(** ** C8: trap spaces within a subspace *)




(** ** C9: projected steady states *)

(** C9, as stated, fails in its last part: with a projection the solver
    shows the projected variables only, so the returned solutions fix those
    and not all variables. *)
Lemma projected_solutions_fix_projected_names_only :
  forallb (Dict.mem Sample.primes) ["Raf"] = true
  /\ snd (steady_states_projected (collab := Reading.projecting) Sample.primes ["Raf"]
            1000 (Some "net.asp") Sample.world)
     = Return [AsDict [("Raf", 1)]; AsDict [("Raf", 0)]]
  /\ Dict.mem [("Raf", 1)] "Mek" = false
  /\ Dict.len [("Raf", 1)] < Dict.len Sample.primes.
Proof.
  split; [reflexivity |]. split; [vm_compute; reflexivity |].
  split; reflexivity.
Qed.

Lemma map_render_dict (collab : Collaborators) primes res :
  map (render primes "dict") res = res.
Proof.
  induction res as [| s rest IH]; [reflexivity |].
  cbn [map]. rewrite IH. reflexivity.
Qed.

(** C9 (amended): when some name of [project] is not a variable of [primes]
    the query logs one error, which lists exactly those names, and exits: the
    solver is not called and nothing is returned.  When all names are known
    the query is the handle called for the variant all with both bounds equal
    to the number n of variables: the text, which carries the two constraints
    for n before the directives of the projection, is written to the file,
    the solver is run on that file, and the decoded output is returned as it
    is.  The returned dicts hold the variables the solver shows. *)
Theorem steady_states_projected_checks_names :
  forall (collab : Collaborators) primes project max_output fname w,
    let n := Dict.len primes in
    steady_states_projected primes project max_output fname w
    = (if forallb (Dict.mem primes) project then
         potassco_handle primes "all" (Some (BInt n, BInt n)) (Some project)
                         max_output fname "dict" None w
       else
         (logged w [(ERROR, UnknownNames (unknown_names primes project))],
          Raise SystemExit))
    /\ (forall x, In x (unknown_names primes project)
                  <-> In x project /\ Dict.mem primes x = false)
    /\ asp_lines (today w) primes (resolve_bounds primes (Some (BN, BN)))
                 (Some project) (Some "all") None
       = Return (rules (today w) primes (Some "all") ++ cardinality_block n n
                 ++ show (restrict_project primes (Some project)) (Some "all"))%list
    /\ (0 < n ->
        cardinality_block n n
        = [ ""; cardinality_comment (BInt n, BInt n);
            ":- {hit(V,S)} " ++ Py.str_of_int (n - 1) ++ ".";
            ":- " ++ Py.str_of_int (n + 1) ++ " {hit(V,S)}." ])
    /\ (forall f lines output error res,
           fname = Some f ->
           forallb (Dict.mem primes) project = true ->
           asp_lines (today w) primes (Some (BInt n, BInt n)) (Some project)
                     (Some "all") None = Return lines ->
           run_processes [CMD_GRINGO; f] [CMD_CLASP;
                                          "--models=" ++ Py.str_of_int max_output;
                                          "--project"]
                         None (Dict.set (files w) f (Py.join newline lines))
           = Completed output error ->
           Py.contains "ERROR" error = false ->
           decode "all" output max_output = Return res ->
           steady_states_projected primes project max_output fname w
           = (logged (written w f (Py.join newline lines))
                (debug_records (Py.join newline lines) [CMD_GRINGO; f]
                               (clasp_command max_output "all") error output
                 ++ (if Z.of_nat (length res) =? max_output
                     then more_notice max_output else []))%list,
              Return res)).
Proof.
  intros collab primes project max_output fname w n.
  assert (Hcall : steady_states_projected primes project max_output fname w
                  = (if forallb (Dict.mem primes) project then
                       potassco_handle primes "all" (Some (BInt n, BInt n))
                                       (Some project) max_output fname "dict" None w
                     else
                       (logged w [(ERROR, UnknownNames (unknown_names primes project))],
                        Raise SystemExit))).
  { unfold steady_states_projected.
    destruct (forallb (Dict.mem primes) project) eqn:Hall.
    + apply unknown_names_nil in Hall. rewrite Hall.
      rewrite potassco_handle_resolved. reflexivity.
    + destruct (unknown_names primes project) as [| x rest] eqn:Hu.
      * apply unknown_names_nil in Hu. congruence.
      * reflexivity. }
  split; [exact Hcall |].
  split; [apply unknown_names_spec |].
  split; [rewrite asp_lines_eq; reflexivity |].
  split.
  - intros Hpos. unfold cardinality_block. apply Z.ltb_lt in Hpos. rewrite Hpos.
    reflexivity.
  - intros f lines output error res Hf Hall Hlines Hproc Herr Hdec.
    rewrite Hcall, Hall. subst fname.
    rewrite (@handle_completes collab primes "all" (Some (BInt n, BInt n))
               (Some project) max_output f "dict" None w lines output error res
               eq_refl eq_refl Hlines Hproc Herr Hdec).
    rewrite map_render_dict. reflexivity.
Qed.

Lemma steady_states_projected_checks_names_witness :
  0 < Dict.len Sample.primes
  /\ forallb (Dict.mem Sample.primes) ["Raf"] = true
  /\ cardinality_block 3 3
     = [ ""; cardinality_comment (BInt 3, BInt 3); ":- {hit(V,S)} 2."; ":- 4 {hit(V,S)}." ]
  /\ snd (steady_states_projected (collab := Reading.projecting) Sample.primes ["Raf"]
            1000 (Some "net.asp") Sample.world)
     = Return [AsDict [("Raf", 1)]; AsDict [("Raf", 0)]].
Proof.
  assert (Hpos : 0 < Dict.len Sample.primes) by reflexivity.
  split; [exact Hpos |]. split; [reflexivity |].
  destruct (@steady_states_projected_checks_names Reading.projecting Sample.primes
              ["Raf"] 1000 (Some "net.asp") Sample.world)
    as [_ [_ [_ [Hblock Hrun]]]].
  split; [exact (Hblock Hpos) |].
  assert (Hex : exists lines,
             asp_lines (today Sample.world) Sample.primes (Some (BInt 3, BInt 3))
                       (Some ["Raf"]) (Some "all") None = Return lines)
    by (rewrite asp_lines_eq; eexists; reflexivity).
  destruct Hex as [lines Hlines].
  rewrite (Hrun "net.asp" lines Reading.projected_answers ""
             [AsDict [("Raf", 1)]; AsDict [("Raf", 0)]]
             eq_refl eq_refl Hlines eq_refl eq_refl eq_refl).
  reflexivity.
Defined.
